(** * speech-recognition.js: transcript accumulation and running analytics

    A shallow embedding of [SpeechRecognitionManager]
    (src/speech-recognition.js) and the properties of its transcript
    processing, analytics snapshots and start/stop control.

    Conventions of the embedding.

    - A JavaScript string is a [string] whose characters are the code
      units U+0000..U+00FF (the Latin-1 range).  On that range
      [String.prototype.trim], [toLowerCase], and the regular-expression
      classes [\s], [\w] and [\b] are embedded exactly as ECMAScript
      defines them; text with code units above U+00FF is outside the model.
    - Counters are JavaScript numbers holding integers; they are [Z] here
      (exact below 2^53).  Quotients are doubles: module [Float] rounds
      the exact quotient to the nearest double.
    - The host (clock, recognition engine, timers, console, registered
      callbacks) is a record of oracles and a trace of observable events.
      Callbacks are observers: they return normally and do not re-enter. *)

From Stdlib Require Import ZArith QArith Qround Qabs Lqa Ascii String DecimalString.
From stdpp Require Import gmap strings list.

Local Open Scope Z_scope.

(** ** Characters *)

Module Char.

Definition code (c : ascii) : N := N_of_ascii c.

Definition between (lo hi : N) (c : ascii) : bool :=
  ((lo <=? code c) && (code c <=? hi))%N.

(** ECMAScript WhiteSpace and LineTerminator below U+0100: TAB, LF, VT,
    FF, CR, SP and NBSP.  This is both the class [\s] and what [trim]
    strips. *)
Definition isWhiteSpace (c : ascii) : bool :=
  match code c with
  | 9 | 10 | 11 | 12 | 13 | 32 | 160 => true
  | _ => false
  end%N.

Definition isDigit (c : ascii) : bool := between 48 57 c.
Definition isUpper (c : ascii) : bool := between 65 90 c.
Definition isLower (c : ascii) : bool := between 97 122 c.
Definition isUnderscore (c : ascii) : bool := (code c =? 95)%N.

(** The class [\w] of a regular expression without the [u] flag:
    [A-Za-z0-9_]. *)
Definition isWordChar (c : ascii) : bool :=
  isUpper c || isLower c || isDigit c || isUnderscore c.

Definition isAlnum (c : ascii) : bool :=
  isUpper c || isLower c || isDigit c.

(** Upper-case letters of Latin-1 outside ASCII: U+00C0..U+00DE except
    the multiplication sign U+00D7. *)
Definition isUpperLatin1 (c : ascii) : bool :=
  between 192 222 c && negb (code c =? 215)%N.

Definition toLowerCase (c : ascii) : ascii :=
  if isUpper c || isUpperLatin1 c
  then ascii_of_N (code c + 32)
  else c.

(** Canonicalisation of the [i] flag (no [u] flag) restricted to what the
    filler patterns need: a pattern character, which is a lower-case
    ASCII letter or a space, matches an input character exactly when the
    two agree up to ASCII case.  A code unit at or above 128 never
    canonicalises to an ASCII one. *)
Definition eqIgnoreCase (p c : ascii) : bool :=
  if between 0 127 c
  then (code (toLowerCase p) =? code (toLowerCase c))%N
  else (code p =? code c)%N.

End Char.

(** ** Strings *)

Module Str.

Fixpoint all (f : ascii → bool) (s : string) : bool :=
  match s with
  | EmptyString => true
  | String c r => f c && all f r
  end.

Fixpoint filter (f : ascii → bool) (s : string) : string :=
  match s with
  | EmptyString => EmptyString
  | String c r => if f c then String c (filter f r) else filter f r
  end.

Fixpoint map (f : ascii → ascii) (s : string) : string :=
  match s with
  | EmptyString => EmptyString
  | String c r => String (f c) (map f r)
  end.

Definition isEmpty (s : string) : bool :=
  match s with EmptyString => true | String _ _ => false end.

(** A fragment is blank when it is empty or made of white space only. *)
Definition blank (s : string) : bool := all Char.isWhiteSpace s.

Fixpoint trimStart (s : string) : string :=
  match s with
  | EmptyString => EmptyString
  | String c r => if Char.isWhiteSpace c then trimStart r else s
  end.

Fixpoint trimEnd (s : string) : string :=
  match s with
  | EmptyString => EmptyString
  | String c r =>
      let r' := trimEnd r in
      if Char.isWhiteSpace c && isEmpty r' then EmptyString else String c r'
  end.

(** [String.prototype.trim] *)
Definition trim (s : string) : string := trimEnd (trimStart s).

(** [String.prototype.toLowerCase] *)
Definition toLowerCase (s : string) : string := map Char.toLowerCase s.

(** [s.split(/\s+/)]: the pieces between maximal runs of white space.  A
    run at either end leaves an empty piece there, and the empty string
    splits into one empty piece.  [acc] is the current piece reversed and
    [inSep] tells that the previous character belonged to a separator. *)
Fixpoint split_go (acc : string) (inSep : bool) (s : string) : list string :=
  match s with
  | EmptyString => [String.rev acc]
  | String c r =>
      if Char.isWhiteSpace c
      then if inSep then split_go acc true r
           else String.rev acc :: split_go EmptyString true r
      else split_go (String c acc) false r
  end.

Definition split_whitespace (s : string) : list string :=
  split_go EmptyString false s.

(** [Array.prototype.includes] on an array of strings *)
Fixpoint includes (l : list string) (w : string) : bool :=
  match l with
  | [] => false
  | x :: r => if String.eqb x w then true else includes r w
  end.

(** [w.replace(re, "")] for a global regular expression [re] that matches
    single characters: every matching character is deleted. *)
Definition deleteAll (re : ascii → bool) (w : string) : string :=
  filter (fun c => negb (re c)) w.

End Str.

(** ** The filler-word regular expressions

    [new RegExp('\\b' + fillerWord + '\\b', 'gi')] for a filler phrase made
    of lower-case ASCII letters and spaces: a word boundary, the phrase
    matched character by character without regard to ASCII case, and a word
    boundary. *)

Module RegExp.

Definition isWord (c : option ascii) : bool :=
  match c with Some x => Char.isWordChar x | None => false end.

Definition head (s : string) : option ascii :=
  match s with EmptyString => None | String c _ => Some c end.

(** The assertion [\b] between the character before the position and the
    character at it; the ends of the input count as non-word. *)
Definition wordBoundary (prev next : option ascii) : bool :=
  xorb (isWord prev) (isWord next).

(** Matches the phrase [p] at the start of [s]; gives the last consumed
    input character and the rest of the input. *)
Fixpoint matchLiteral (p : string) (prev : option ascii) (s : string)
  : option (option ascii * string) :=
  match p with
  | EmptyString => Some (prev, s)
  | String pc pr =>
      match s with
      | EmptyString => None
      | String c r =>
          if Char.eqIgnoreCase pc c then matchLiteral pr (Some c) r else None
      end
  end.

Definition matchAt (p : string) (prev : option ascii) (s : string) : bool :=
  wordBoundary prev (head s) &&
  match matchLiteral p prev s with
  | Some (last, rest) => wordBoundary last (head rest)
  | None => false
  end.

(** The number of elements of [s.match(re)] under the [g] flag (0 when the
    result is [null]): matches are taken leftmost first and the search
    resumes where a match ended, so they do not overlap.  [skip] counts
    the characters of the last match that are still to be passed.  The
    phrase is not empty, so nothing matches at the end of the input. *)
Fixpoint countMatches_go (p : string) (skip : nat) (prev : option ascii)
    (s : string) : Z :=
  match s with
  | EmptyString => 0
  | String c r =>
      match skip with
      | S k => countMatches_go p k (Some c) r
      | O =>
          if matchAt p prev s
          then 1 + countMatches_go p (String.length p - 1) (Some c) r
          else countMatches_go p 0 (Some c) r
      end
  end.

Definition countMatches (p : string) (s : string) : Z :=
  countMatches_go p 0 None s.

End RegExp.

(** ** Session data *)

Record EmotionScores := {
  positive : Z;
  negative : Z;
  neutral : Z
}.

(** The properties the constructor assigns once a recognition engine exists
    ([this.recognition] itself is never reassigned).  [startTime] is [null]
    or a reading of [Date.now()]; [analyticsTimer] is [null] or the handle
    [setInterval] returned. *)
Record Session := {
  isRecording : bool;
  transcriptText : string;
  startTime : option Z;
  wordCount : Z;
  fillerWordCount : Z;
  uniqueWords : gset string;
  emotionScores : EmotionScores;
  analyticsTimer : option nat
}.

Definition fillerWords : list string :=
  ["um"; "uh"; "like"; "you know"; "actually"; "basically"; "literally";
   "sort of"; "kind of"].

Module sentimentDictionary.
Definition positive : list string :=
  ["great"; "awesome"; "happy"; "excellent"; "wonderful"; "love"; "fantastic"].
Definition negative : list string :=
  ["bad"; "terrible"; "sad"; "awful"; "hate"; "horrible"; "disappointing"].
Definition neutral : list string :=
  ["okay"; "fine"; "normal"; "usual"].
End sentimentDictionary.

(** ** [_processTranscript] *)

(** The regular expression [/[^\w\s]|_/g] on one character. *)
Definition cleanPattern (c : ascii) : bool :=
  negb (Char.isWordChar c || Char.isWhiteSpace c) || Char.isUnderscore c.

(** [word.replace(/[^\w\s]|_/g, "")] *)
Definition cleanWord (word : string) : string :=
  Str.deleteAll cleanPattern word.

(** [transcript.trim().toLowerCase().split(/\s+/)] *)
Definition words (transcript : string) : list string :=
  Str.split_whitespace (Str.toLowerCase (Str.trim transcript)).

Definition set_wordCount (n : Z) (s : Session) : Session :=
  {| isRecording := isRecording s; transcriptText := transcriptText s;
     startTime := startTime s; wordCount := n;
     fillerWordCount := fillerWordCount s; uniqueWords := uniqueWords s;
     emotionScores := emotionScores s; analyticsTimer := analyticsTimer s |}.

Definition set_fillerWordCount (n : Z) (s : Session) : Session :=
  {| isRecording := isRecording s; transcriptText := transcriptText s;
     startTime := startTime s; wordCount := wordCount s;
     fillerWordCount := n; uniqueWords := uniqueWords s;
     emotionScores := emotionScores s; analyticsTimer := analyticsTimer s |}.

Definition set_words (u : gset string) (e : EmotionScores) (s : Session)
  : Session :=
  {| isRecording := isRecording s; transcriptText := transcriptText s;
     startTime := startTime s; wordCount := wordCount s;
     fillerWordCount := fillerWordCount s; uniqueWords := u;
     emotionScores := e; analyticsTimer := analyticsTimer s |}.

(** The three-way [if] on the sentiment dictionary: the first list that
    holds the word wins. *)
Definition scoreWord (cleanWord : string) (e : EmotionScores) : EmotionScores :=
  if Str.includes sentimentDictionary.positive cleanWord then
    {| positive := positive e + 1; negative := negative e; neutral := neutral e |}
  else if Str.includes sentimentDictionary.negative cleanWord then
    {| positive := positive e; negative := negative e + 1; neutral := neutral e |}
  else if Str.includes sentimentDictionary.neutral cleanWord then
    {| positive := positive e; negative := negative e; neutral := neutral e + 1 |}
  else e.

(** The body of [words.forEach(word => ...)] *)
Definition processWord (word : string) (s : Session) : Session :=
  let cleanWord := cleanWord word in
  if (0 <? Z.of_nat (String.length cleanWord))
  then set_words ({[ cleanWord ]} ∪ uniqueWords s)
                 (scoreWord cleanWord (emotionScores s)) s
  else s.

(** The body of [this.fillerWords.forEach(fillerWord => ...)] *)
Definition countFiller (transcript : string) (fillerWord : string) (s : Session)
  : Session :=
  let matches := RegExp.countMatches fillerWord transcript in
  if 0 <? matches
  then set_fillerWordCount (fillerWordCount s + matches) s
  else s.

Definition forEach {A} (l : list A) (f : A → Session → Session) (s : Session)
  : Session :=
  fold_left (fun acc x => f x acc) l s.

Definition _processTranscript (transcript : string) (isInterim : bool)
    (s : Session) : Session :=
  let words := words transcript in
  let s1 := if negb isInterim
            then set_wordCount (wordCount s + Z.of_nat (length words)) s
            else s in
  let s2 := forEach words processWord s1 in
  if negb isInterim
  then forEach fillerWords (countFiller transcript) s2
  else s2.

(** The values [start()] resets the session to (the flag, the clock reading
    and the timer handle apart). *)
Definition resetSession (rec : bool) (t : option Z) (timer : option nat) : Session :=
  {| isRecording := rec; transcriptText := ""; startTime := t;
     wordCount := 0; fillerWordCount := 0; uniqueWords := ∅;
     emotionScores := {| positive := 0; negative := 0; neutral := 0 |};
     analyticsTimer := timer |}.

Definition fresh : Session := resetSession true (Some 1000) (Some 1%nat).

(** ** Numbers

    A number is the rational it denotes.  Division and multiplication give
    the double nearest to the exact result: 53 significant bits, ties to
    the even significand.  Overflow, subnormal results and division by zero
    are not embedded: they need magnitudes beyond 2^1023 or below 2^-1022,
    or a zero divisor, and every quotient in the source has a divisor that
    is a positive constant or is tested to be positive. *)

Module Float.

(** [x * 2^e] *)
Definition scale (x : Q) (e : Z) : Q :=
  if 0 <=? e then (x * inject_Z (2 ^ e))%Q else (x / inject_Z (2 ^ (- e)))%Q.

(** The integer nearest to [y], the even one on a tie. *)
Definition nearestEven (y : Q) : Z :=
  let f := Qfloor y in
  match Qcompare (y - inject_Z f) (1 # 2) with
  | Lt => f
  | Gt => f + 1
  | Eq => if Z.even f then f else f + 1
  end.

(** For [a > 0], the exponent [e] of the unit in the last place of [a]:
    [2^52 <= a * 2^(-e) < 2^53]. *)
Definition exponent (a : Q) : Z :=
  let k := Z.log2 (Qnum a) - Z.log2 (Zpos (Qden a)) in
  if Qle_bool (inject_Z (2 ^ 52)) (scale a (52 - k)) then k - 52 else k - 53.

Definition roundPositive (a : Q) : Q :=
  let e := exponent a in
  Qred (scale (inject_Z (nearestEven (scale a (- e)))) e).

(** The double nearest to the real [x]. *)
Definition round (x : Q) : Q :=
  match Qnum x with
  | 0 => 0%Q
  | Zpos _ => roundPositive x
  | Zneg _ => (- roundPositive (- x))%Q
  end.

Definition div (x y : Q) : Q := round (x / y).
Definition mul (x y : Q) : Q := round (x * y).

End Float.

(** ** JavaScript values and number formatting *)

Inductive jsval :=
| JUndefined
| JBool (b : bool)
| JNumber (z : Z)
| JString (s : string).

Module Num.

(** [x > 0] on numbers *)
Definition positive (x : Q) : bool := negb (Qle_bool x 0%Q).

(** [Math.round]: the nearest integer, ties towards plus infinity. *)
Definition round (x : Q) : Z := Qfloor (x + (1 # 2))%Q.

Definition digits (n : Z) : string :=
  NilEmpty.string_of_uint (N.to_uint (Z.to_N n)).

Definition twoDigits (n : Z) : string :=
  if n <? 10 then "0" +:+ digits n else digits n.

(** [x.toFixed(2)] for [|x| < 1e21]: with [n] the integer nearest to
    [|x| * 100] (the larger one on a tie), the digits of [n] with a point
    before the last two, and a minus sign when [x < 0]. *)
Definition toFixed2 (x : Q) : string :=
  let n := Qfloor (Qabs x * 100 + (1 # 2))%Q in
  (if positive (- x)%Q then "-" else "") +:+
  digits (n / 100) +:+ "." +:+ twoDigits (n mod 100).

End Num.

(** ** Analytics snapshots *)

Module Tone.
Record t := { positive : jsval; negative : jsval; neutral : jsval }.
End Tone.

Module Analytics.
Record t := {
  speakingPace : Z;
  fillerWordCount : Z;
  vocabularyDiversity : string;
  emotionalTone : Tone.t;
  duration : Z
}.
End Analytics.

(** [(Date.now() - this.startTime) / 1000 / 60] *)
Definition durationMinutes (now startTime : Z) : Q :=
  Float.div (Float.div (inject_Z (now - startTime)) 1000) 60.

(** The ratio behind [vocabularyDiversity], before [toFixed(2)]. *)
Definition vocabularyDiversity (s : Session) : Q :=
  if 0 <? wordCount s
  then Float.div (inject_Z (Z.of_nat (size (uniqueWords s))))
                 (inject_Z (wordCount s))
  else 0%Q.

Definition totalEmotion (s : Session) : Z :=
  positive (emotionScores s) + negative (emotionScores s)
  + neutral (emotionScores s).

Definition emotionalTone (s : Session) : Tone.t :=
  let totalEmotion := totalEmotion s in
  let share (count : Z) :=
    JString (Num.toFixed2 (Float.div (inject_Z count) (inject_Z totalEmotion))) in
  if 0 <? totalEmotion
  then {| Tone.positive := share (positive (emotionScores s));
          Tone.negative := share (negative (emotionScores s));
          Tone.neutral := share (neutral (emotionScores s)) |}
  else {| Tone.positive := JNumber 0; Tone.negative := JNumber 0;
          Tone.neutral := JNumber 1 |}.

(** The object [analytics] that [_updateAnalytics] builds from the session
    and the clock reading [now], for a session started at [t]. *)
Definition analytics (s : Session) (t now : Z) : Analytics.t :=
  let duration := durationMinutes now t in
  let wpm := if Num.positive duration
             then Num.round (Float.div (inject_Z (wordCount s)) duration)
             else 0 in
  {| Analytics.speakingPace := wpm;
     Analytics.fillerWordCount := fillerWordCount s;
     Analytics.vocabularyDiversity := Num.toFixed2 (vocabularyDiversity s);
     Analytics.emotionalTone := emotionalTone s;
     Analytics.duration := Num.round (Float.mul duration 60) |}.

(** ** The manager object and its host *)

Definition Callback := nat.

(** [props] is [None] when the constructor returned before assigning any
    property: [this.recognition] and every session property are then
    [undefined].  The callback properties are [None] when they hold [null]
    or [undefined]. *)
Record SpeechRecognitionManager := {
  props : option Session;
  onTranscriptUpdate : option Callback;
  onAnalyticsUpdate : option Callback
}.

Inductive Event :=
| ConsoleError (msg : string)
| ConsoleWarn (msg : string)
| ConsoleLog (msg : string)
| EngineStart
| EngineStop
| IntervalSet (handle : nat)
| IntervalCleared (handle : option nat)
| TranscriptUpdate (cb : Callback) (text interim : string)
| AnalyticsUpdate (cb : Callback) (a : Analytics.t) (isFinal : bool).

(** [clock] lists the successive readings of [Date.now()] and [ticks] counts
    the readings taken; [engine k] tells whether the [k]-th call of a method
    of the recognition engine raises, and [calls] counts those calls;
    [handles] is the next handle [setInterval] gives out; [trace] is what
    the program did to its host, oldest first. *)
Record Host := {
  clock : nat → Z;
  ticks : nat;
  engine : nat → bool;
  calls : nat;
  handles : nat;
  trace : list Event
}.

Record World := { this : SpeechRecognitionManager; host : Host }.

Inductive Completion (A : Type) :=
| Normal (a : A)
| Throw (error : string).
Arguments Normal {A} a.
Arguments Throw {A} error.

Definition M (A : Type) : Type := World → Completion A * World.

Global Instance M_ret : MRet M := fun A a w => (Normal a, w).

Global Instance M_bind : MBind M := fun A B k m w =>
  match m w with
  | (Normal a, w') => k a w'
  | (Throw e, w') => (Throw e, w')
  end.

(** [try { body } catch (error) { handler }]: what [body] did before it
    raised stays done. *)
Definition try_catch {A} (body : M A) (handler : string → M A) : M A :=
  fun w =>
    match body w with
    | (Normal a, w') => (Normal a, w')
    | (Throw e, w') => handler e w'
    end.

Definition set_trace (t : list Event) (h : Host) : Host :=
  {| clock := clock h; ticks := ticks h; engine := engine h; calls := calls h;
     handles := handles h; trace := t |}.

Definition emit (e : Event) : M unit :=
  fun w => (Normal (), {| this := this w;
                          host := set_trace (trace (host w) ++ [e]) (host w) |}).

(** [Date.now()] *)
Definition Date_now : M Z :=
  fun w =>
    let h := host w in
    (Normal (clock h (ticks h)),
     {| this := this w;
        host := {| clock := clock h; ticks := S (ticks h); engine := engine h;
                   calls := calls h; handles := handles h; trace := trace h |} |}).

(** A method of the recognition engine: it raises when the host says so,
    and otherwise takes effect. *)
Definition engine_call (e : Event) : M unit :=
  fun w =>
    let h := host w in
    let h' t := {| clock := clock h; ticks := ticks h; engine := engine h;
                   calls := S (calls h); handles := handles h; trace := t |} in
    if engine h (calls h)
    then (Throw "InvalidStateError", {| this := this w; host := h' (trace h) |})
    else (Normal (), {| this := this w; host := h' (trace h ++ [e]) |}).

(** [setInterval(..., 2000)] *)
Definition setInterval : M nat :=
  fun w =>
    let h := host w in
    (Normal (handles h),
     {| this := this w;
        host := {| clock := clock h; ticks := ticks h; engine := engine h;
                   calls := calls h; handles := S (handles h);
                   trace := trace h ++ [IntervalSet (handles h)] |} |}).

Definition clearInterval (handle : option nat) : M unit :=
  emit (IntervalCleared handle).

Definition getThis : M SpeechRecognitionManager :=
  fun w => (Normal (this w), w).

(** An assignment to session properties of [this]. *)
Definition assign (f : Session → Session) : M unit :=
  fun w =>
    (Normal (),
     {| this := {| props := f <$> props (this w);
                   onTranscriptUpdate := onTranscriptUpdate (this w);
                   onAnalyticsUpdate := onAnalyticsUpdate (this w) |};
        host := host w |}).

Definition set_isRecording (b : bool) (s : Session) : Session :=
  {| isRecording := b; transcriptText := transcriptText s;
     startTime := startTime s; wordCount := wordCount s;
     fillerWordCount := fillerWordCount s; uniqueWords := uniqueWords s;
     emotionScores := emotionScores s; analyticsTimer := analyticsTimer s |}.

Definition set_transcriptText (t : string) (s : Session) : Session :=
  {| isRecording := isRecording s; transcriptText := t;
     startTime := startTime s; wordCount := wordCount s;
     fillerWordCount := fillerWordCount s; uniqueWords := uniqueWords s;
     emotionScores := emotionScores s; analyticsTimer := analyticsTimer s |}.

Definition set_startTime (t : option Z) (s : Session) : Session :=
  {| isRecording := isRecording s; transcriptText := transcriptText s;
     startTime := t; wordCount := wordCount s;
     fillerWordCount := fillerWordCount s; uniqueWords := uniqueWords s;
     emotionScores := emotionScores s; analyticsTimer := analyticsTimer s |}.

Definition set_analyticsTimer (h : option nat) (s : Session) : Session :=
  {| isRecording := isRecording s; transcriptText := transcriptText s;
     startTime := startTime s; wordCount := wordCount s;
     fillerWordCount := fillerWordCount s; uniqueWords := uniqueWords s;
     emotionScores := emotionScores s; analyticsTimer := h |}.

(** The truth value of [this.startTime]: [undefined], [null] and the number
    0 are false. *)
Definition truthyTime (t : option Z) : option Z :=
  match t with
  | Some z => if z =? 0 then None else Some z
  | None => None
  end.

(** ** The methods *)

(** [new SpeechRecognitionManager()]; [supported] tells whether [window]
    has [webkitSpeechRecognition] or [SpeechRecognition]. *)
Definition construct (supported : bool) (h : Host) : World :=
  if supported
  then {| this := {| props := Some (resetSession false None None);
                     onTranscriptUpdate := None; onAnalyticsUpdate := None |};
          host := h |}
  else {| this := {| props := None; onTranscriptUpdate := None;
                     onAnalyticsUpdate := None |};
          host := set_trace
                    (trace h ++
                     [ConsoleError "Speech recognition not supported in this browser"])
                    h |}.

Definition _updateAnalytics (isFinal : bool) : M unit :=
  me ← getThis;
  match props me with
  | None => mret ()
  | Some s =>
      match truthyTime (startTime s) with
      | None => mret ()
      | Some t =>
          now ← Date_now;
          let analytics := analytics s t now in
          match onAnalyticsUpdate me with
          | Some cb => emit (AnalyticsUpdate cb analytics isFinal)
          | None => mret ()
          end
      end
  end.

Definition start : M unit :=
  me ← getThis;
  match props me with
  | None => mret ()
  | Some _ =>
      try_catch
        (assign (set_isRecording true) ;;
         engine_call EngineStart ;;
         now ← Date_now;
         assign (set_startTime (Some now)) ;;
         assign (set_wordCount 0) ;;
         assign (set_fillerWordCount 0) ;;
         assign (set_words ∅ {| positive := 0; negative := 0; neutral := 0 |}) ;;
         assign (set_transcriptText "") ;;
         handle ← setInterval;
         assign (set_analyticsTimer (Some handle)) ;;
         emit (ConsoleLog "Speech recognition started"))
        (fun error => emit (ConsoleError "Error starting speech recognition:"))
  end.

Definition stop : M unit :=
  me ← getThis;
  match props me with
  | None => mret ()
  | Some s =>
      try_catch
        (assign (set_isRecording false) ;;
         engine_call EngineStop ;;
         clearInterval (analyticsTimer s) ;;
         match truthyTime (startTime s) with
         | Some t =>
             now ← Date_now;
             if Num.positive (durationMinutes now t)
             then _updateAnalytics true
             else emit (ConsoleWarn
                          "Speech duration too short to calculate analytics.")
         | None => mret ()
         end ;;
         emit (ConsoleLog "Speech recognition stopped"))
        (fun error => emit (ConsoleError "Error stopping speech recognition:"))
  end.

Definition setTranscriptUpdateCallback (callback : option Callback) : M unit :=
  fun w =>
    (Normal (),
     {| this := {| props := props (this w); onTranscriptUpdate := callback;
                   onAnalyticsUpdate := onAnalyticsUpdate (this w) |};
        host := host w |}).

Definition setAnalyticsUpdateCallback (callback : option Callback) : M unit :=
  fun w =>
    (Normal (),
     {| this := {| props := props (this w);
                   onTranscriptUpdate := onTranscriptUpdate (this w);
                   onAnalyticsUpdate := callback |};
        host := host w |}).

(** [getTranscript()] and [isListening()] read a property; an absent
    property reads as [undefined]. *)
Definition getTranscript (me : SpeechRecognitionManager) : jsval :=
  match props me with
  | Some s => JString (transcriptText s)
  | None => JUndefined
  end.

Definition isListening (me : SpeechRecognitionManager) : jsval :=
  match props me with
  | Some s => JBool (isRecording s)
  | None => JUndefined
  end.

(** ** The handlers installed on the recognition engine

    They exist only when the constructor went through; [results] is
    [event.results] from [event.resultIndex] on, each entry with its
    transcript and its [isFinal] flag. *)

Fixpoint onresult_loop (results : list (string * bool))
    (interimTranscript finalTranscript : string) : M (string * string) :=
  match results with
  | [] => mret (interimTranscript, finalTranscript)
  | (transcript, isFinal) :: rest =>
      if isFinal
      then assign (_processTranscript transcript false) ;;
           onresult_loop rest interimTranscript (finalTranscript +:+ transcript)
      else assign (_processTranscript transcript true) ;;
           onresult_loop rest (interimTranscript +:+ transcript) finalTranscript
  end.

Definition onresult (results : list (string * bool)) : M unit :=
  me ← getThis;
  match props me with
  | None => mret ()
  | Some _ =>
      r ← onresult_loop results "" "";
      assign (fun s =>
                set_transcriptText
                  (Str.trim (transcriptText s +:+ " " +:+ r.2)) s) ;;
      me ← getThis;
      match onTranscriptUpdate me, props me with
      | Some cb, Some s => emit (TranscriptUpdate cb (transcriptText s) r.1)
      | _, _ => mret ()
      end ;;
      _updateAnalytics false
  end.

Definition onerror : M unit :=
  me ← getThis;
  match props me with
  | None => mret ()
  | Some _ => emit (ConsoleError "Speech recognition error:") ;; stop
  end.

Definition onend : M unit :=
  me ← getThis;
  match props me with
  | None => mret ()
  | Some s =>
      if isRecording s
      then engine_call EngineStart
      else clearInterval (analyticsTimer s) ;; _updateAnalytics true
  end.

(** What can happen to a manager: a call of its interface, an event of the
    recognition engine, or a tick of the analytics timer. *)
Inductive Action :=
| CallStart
| CallStop
| CallSetTranscriptUpdateCallback (callback : option Callback)
| CallSetAnalyticsUpdateCallback (callback : option Callback)
| OnResult (results : list (string * bool))
| OnError
| OnEnd
| TimerTick.

Definition perform (a : Action) : M unit :=
  match a with
  | CallStart => start
  | CallStop => stop
  | CallSetTranscriptUpdateCallback cb => setTranscriptUpdateCallback cb
  | CallSetAnalyticsUpdateCallback cb => setAnalyticsUpdateCallback cb
  | OnResult results => onresult results
  | OnError => onerror
  | OnEnd => onend
  | TimerTick => _updateAnalytics false
  end.

(** The world after a run of actions; an exception that escapes a handler
    ends that handler only, the event loop goes on. *)
Definition after (actions : list Action) (w : World) : World :=
  fold_left (fun w a => (perform a w).2) actions w.

(** A host whose clock starts at [t0] and advances [dt] per reading, whose
    engine never raises, and that has seen nothing yet. *)
Definition quietHost (t0 dt : Z) : Host :=
  {| clock := fun k => t0 + dt * Z.of_nat k; ticks := 0;
     engine := fun _ => false; calls := 0; handles := 1; trace := [] |}.

(** A host whose engine raises on every call. *)
Definition brokenHost (t0 dt : Z) : Host :=
  {| clock := fun k => t0 + dt * Z.of_nat k; ticks := 0;
     engine := fun _ => true; calls := 0; handles := 1; trace := [] |}.

(** ** Notions the properties are stated with *)

(** The number of white-space-delimited tokens of a raw text: its maximal
    runs of characters that are not white space.  [inToken] tells that the
    previous character belonged to a token. *)
Fixpoint tokens_go (inToken : bool) (s : string) : nat :=
  match s with
  | EmptyString => 0
  | String c r =>
      if Char.isWhiteSpace c then tokens_go false r
      else (if inToken then 0 else 1) + tokens_go true r
  end.

Definition tokenCount (s : string) : nat := tokens_go false s.

(** Whether the text ends inside a run of white space, [b] being the answer
    for the empty text. *)
Fixpoint endsInSeparator (b : bool) (s : string) : bool :=
  match s with
  | EmptyString => b
  | String c r => endsInSeparator (Char.isWhiteSpace c) r
  end.

(** A session fed final fragments one after the other. *)
Definition processFinals (fragments : list string) (s : Session) : Session :=
  fold_left (fun acc t => _processTranscript t false acc) fragments s.

(** A session fed fragments, final ([true]) or interim ([false]). *)
Definition processFragments (fragments : list (string * bool)) (s : Session)
  : Session :=
  fold_left (fun acc f => _processTranscript f.1 (negb f.2) acc) fragments s.

(** Word characters under Unicode semantics, on the Latin-1 range: the
    ASCII ones and the letters U+00AA, U+00B5, U+00BA, U+00C0..U+00D6,
    U+00D8..U+00F6 and U+00F8..U+00FF. *)
Definition isUnicodeWordChar (c : ascii) : bool :=
  Char.isWordChar c
  || (Char.code c =? 170)%N || (Char.code c =? 181)%N || (Char.code c =? 186)%N
  || Char.between 192 214 c || Char.between 216 246 c || Char.between 248 255 c.

(** The clean token as the specification words it: the token without the
    characters that are neither word characters nor white space. *)
Definition cleanToken_spec (token : string) : string :=
  Str.filter (fun c => isUnicodeWordChar c || Char.isWhiteSpace c) token.

(** An action that brings no interim fragment. *)
Definition finalOnly (a : Action) : bool :=
  match a with
  | OnResult results => forallb snd results
  | _ => true
  end.

(** The snapshots handed to the analytics callback, oldest first. *)
Fixpoint snapshots (tr : list Event) : list (Analytics.t * bool) :=
  match tr with
  | [] => []
  | AnalyticsUpdate _ a isFinal :: r => (a, isFinal) :: snapshots r
  | _ :: r => snapshots r
  end.

Definition finalSnapshots (tr : list Event) : list Analytics.t :=
  fst <$> filter (fun p => p.2 = true) (snapshots tr).

(** [this.startTime] holds [null] or was never assigned. *)
Definition startTimeUnset (me : SpeechRecognitionManager) : Prop :=
  match props me with
  | Some s => startTime s = None
  | None => True
  end.

(** The next reading of the clock. *)
Definition nextReading (w : World) : Z := clock (host w) (ticks (host w)).

(** Whether the next call of an engine method raises. *)
Definition engineRaises (w : World) : bool := engine (host w) (calls (host w)).

(** The distinct words do not outnumber the counted words. *)
Definition uniqueWithinCount (s : Session) : Prop :=
  Z.of_nat (size (uniqueWords s)) ≤ wordCount s.

(** ** Notions the further properties are stated with *)

(** The final and the interim transcripts of one result event, each
    concatenated in the order of the results. *)
Fixpoint finalTranscriptOf (results : list (string * bool)) : string :=
  match results with
  | [] => ""
  | (transcript, isFinal) :: rest =>
      if isFinal then transcript +:+ finalTranscriptOf rest
      else finalTranscriptOf rest
  end.

Fixpoint interimTranscriptOf (results : list (string * bool)) : string :=
  match results with
  | [] => ""
  | (transcript, isFinal) :: rest =>
      if isFinal then interimTranscriptOf rest
      else transcript +:+ interimTranscriptOf rest
  end.

(** The timer events of a trace. *)
Fixpoint intervals (tr : list Event) : list Event :=
  match tr with
  | [] => []
  | IntervalSet h :: r => IntervalSet h :: intervals r
  | IntervalCleared h :: r => IntervalCleared h :: intervals r
  | _ :: r => intervals r
  end.

(** A normalised word: not empty, made of lower-case ASCII letters and
    ASCII digits. *)
Definition normalisedWord (x : string) : bool :=
  negb (Str.isEmpty x)
  && Str.all (fun c => Char.isLower c || Char.isDigit c) x.

(** No counter of the session is negative. *)
Definition countersNonNegative (s : Session) : Prop :=
  0 ≤ wordCount s ∧ 0 ≤ fillerWordCount s
  ∧ 0 ≤ positive (emotionScores s) ∧ 0 ≤ negative (emotionScores s)
  ∧ 0 ≤ neutral (emotionScores s).

(** 1 for [true], 0 for [false]. *)
Definition indicator (b : bool) : Z := if b then 1 else 0.

(** [s'] continues [s]: same recording flag, transcript, start time and
    timer, no counter smaller and no distinct word lost. *)
Definition continues (s s' : Session) : Prop :=
  isRecording s' = isRecording s
  ∧ transcriptText s' = transcriptText s
  ∧ startTime s' = startTime s
  ∧ analyticsTimer s' = analyticsTimer s
  ∧ wordCount s ≤ wordCount s'
  ∧ fillerWordCount s ≤ fillerWordCount s'
  ∧ uniqueWords s ⊆ uniqueWords s'
  ∧ positive (emotionScores s) ≤ positive (emotionScores s')
  ∧ negative (emotionScores s) ≤ negative (emotionScores s')
  ∧ neutral (emotionScores s) ≤ neutral (emotionScores s').

(** ** Proof automation *)

Ltac by_cases_on_char c :=
  destruct c as [[] [] [] [] [] [] [] []]; vm_compute; congruence.

Ltac js_unfold :=
  unfold onerror, onend, start, stop, _updateAnalytics, clearInterval,
    setInterval, engine_call, Date_now, emit, assign, getThis, try_catch,
    setTranscriptUpdateCallback, setAnalyticsUpdateCallback,
    mbind, M_bind, mret, M_ret, engineRaises, nextReading.

Ltac js_world w :=
  destruct w as [[[s|] onT onA] h].

Ltac js_cases :=
  repeat match goal with
    | |- context [engine ?h ?k] => destruct (engine h k) eqn:?; cbn
    | |- context [truthyTime ?t] => destruct (truthyTime t) eqn:?; cbn
    | |- context [Num.positive ?d] => destruct (Num.positive d) eqn:?; cbn
    | |- context [match ?o with Some _ => _ | None => _ end] =>
        is_var o; destruct o; cbn
    | |- context [isRecording ?s] => destruct (isRecording s) eqn:?; cbn
    end.

Ltac js_run w := js_world w; js_unfold; cbn; js_cases.

(** * Properties *)

(** ** Rounding to the nearest double *)

Lemma nearestEven_floor y :
  Float.nearestEven y = Qfloor y
  ∨ (Float.nearestEven y = Qfloor y + 1 ∧ (inject_Z (Qfloor y) < y)%Q).
Proof.
  unfold Float.nearestEven.
  destruct (Qcompare_spec (y - inject_Z (Qfloor y)) (1 # 2)) as [H|H|H].
  - destruct (Z.even (Qfloor y)); [by left|]. right. split; [done|].
    apply Qlt_minus_iff. rewrite H. reflexivity.
  - by left.
  - right. split; [done|]. apply Qlt_minus_iff.
    apply Qlt_trans with (1 # 2)%Q; [reflexivity | exact H].
Qed.

Lemma nearestEven_ge_floor y : Qfloor y ≤ Float.nearestEven y.
Proof. destruct (nearestEven_floor y) as [-> | [-> _]]; lia. Qed.

Lemma nearestEven_le y N : (y <= inject_Z N)%Q → Float.nearestEven y ≤ N.
Proof.
  intros H.
  assert (Qfloor y ≤ N) as Hf.
  { rewrite <- (Qfloor_Z N). by apply Qfloor_resp_le. }
  destruct (nearestEven_floor y) as [-> | [-> Hlt]]; [exact Hf|].
  assert (inject_Z (Qfloor y) < inject_Z N)%Q as Hlt'
    by (eapply Qlt_le_trans; eauto).
  rewrite <- Zlt_Qlt in Hlt'. lia.
Qed.

Lemma nearestEven_ge y N : (inject_Z N <= y)%Q → N ≤ Float.nearestEven y.
Proof.
  intros H. pose proof (nearestEven_ge_floor y).
  assert (N ≤ Qfloor y); [|lia].
  rewrite <- (Qfloor_Z N). by apply Qfloor_resp_le.
Qed.

(** The chosen integer is within one half of the number. *)
Lemma nearestEven_nearest y :
  (Qabs (inject_Z (Float.nearestEven y) - y) <= 1 # 2)%Q.
Proof.
  pose proof (Qfloor_le y) as Hlo. pose proof (Qlt_floor y) as Hhi.
  rewrite inject_Z_plus in Hhi. change (inject_Z 1) with 1%Q in Hhi.
  apply Qabs_Qle_condition. unfold Float.nearestEven.
  destruct (Qcompare_spec (y - inject_Z (Qfloor y)) (1 # 2)) as [H|H|H].
  - destruct (Z.even (Qfloor y)).
    + split; lra.
    + rewrite inject_Z_plus. change (inject_Z 1) with 1%Q. split; lra.
  - split; lra.
  - rewrite inject_Z_plus. change (inject_Z 1) with 1%Q. split; lra.
Qed.

Lemma scale_pos x e : (0 < x)%Q → (0 < Float.scale x e)%Q.
Proof.
  intros Hx. unfold Float.scale. destruct (Z.leb_spec 0 e).
  - apply Qmult_lt_0_compat; [exact Hx|].
    change 0%Q with (inject_Z 0). rewrite <- Zlt_Qlt. by apply Z.pow_pos_nonneg.
  - apply Qlt_shift_div_l.
    + change 0%Q with (inject_Z 0). rewrite <- Zlt_Qlt.
      apply Z.pow_pos_nonneg; lia.
    + by rewrite Qmult_0_l.
Qed.

Lemma inject_pow_pos e : 0 ≤ e → (0 < inject_Z (2 ^ e))%Q.
Proof.
  intros H. change 0%Q with (inject_Z 0). rewrite <- Zlt_Qlt.
  by apply Z.pow_pos_nonneg.
Qed.

(** [2^j <= a * 2^s] as soon as [j] is below the magnitude of [a] plus [s]. *)
Lemma scale_lower (n d : Pos.t) s j :
  0 ≤ j → j ≤ s + Z.log2 (Zpos n) - Z.log2 (Zpos d) - 1 →
  (inject_Z (2 ^ j) <= Float.scale (Zpos n # d) s)%Q.
Proof.
  intros Hj Hs.
  destruct (Z.log2_spec (Zpos n)) as [Hn1 Hn2]; [lia|].
  destruct (Z.log2_spec (Zpos d)) as [Hd1 Hd2]; [lia|].
  pose proof (Z.log2_nonneg (Zpos n)) as Hln.
  pose proof (Z.log2_nonneg (Zpos d)) as Hld.
  set (ln := Z.log2 (Zpos n)) in *. set (ld := Z.log2 (Zpos d)) in *.
  assert (0 < 2 ^ j) as Hpj by (apply Z.pow_pos_nonneg; lia).
  unfold Float.scale. destruct (Z.leb_spec 0 s) as [H0|H0].
  - assert (2 ^ j * 2 ^ Z.succ ld ≤ 2 ^ ln * 2 ^ s) as Hp.
    { rewrite <- !Z.pow_add_r by lia. apply Z.pow_le_mono_r; lia. }
    assert (0 < 2 ^ s) by (apply Z.pow_pos_nonneg; lia).
    unfold Qle, Qmult, inject_Z; cbn. nia.
  - assert (2 ^ j * 2 ^ Z.succ ld * 2 ^ (- s) ≤ 2 ^ ln) as Hp.
    { rewrite <- !Z.pow_add_r by lia. apply Z.pow_le_mono_r; lia. }
    assert (0 < 2 ^ (- s)) as Hpos by (apply Z.pow_pos_nonneg; lia).
    apply Qle_shift_div_l; [apply inject_pow_pos; lia|].
    unfold Qle, Qmult, inject_Z; cbn. nia.
Qed.

(** [a * 2^s < 2^j] as soon as [j] is above the magnitude of [a] plus [s]. *)
Lemma scale_upper (n d : Pos.t) s j :
  0 ≤ j → s + Z.log2 (Zpos n) - Z.log2 (Zpos d) + 1 ≤ j →
  (Float.scale (Zpos n # d) s < inject_Z (2 ^ j))%Q.
Proof.
  intros Hj Hs.
  destruct (Z.log2_spec (Zpos n)) as [Hn1 Hn2]; [lia|].
  destruct (Z.log2_spec (Zpos d)) as [Hd1 Hd2]; [lia|].
  pose proof (Z.log2_nonneg (Zpos n)) as Hln.
  pose proof (Z.log2_nonneg (Zpos d)) as Hld.
  set (ln := Z.log2 (Zpos n)) in *. set (ld := Z.log2 (Zpos d)) in *.
  assert (0 < 2 ^ j) as Hpj by (apply Z.pow_pos_nonneg; lia).
  unfold Float.scale. destruct (Z.leb_spec 0 s) as [H0|H0].
  - assert (2 ^ Z.succ ln * 2 ^ s ≤ 2 ^ j * 2 ^ ld) as Hp.
    { rewrite <- !Z.pow_add_r by lia. apply Z.pow_le_mono_r; lia. }
    assert (0 < 2 ^ s) by (apply Z.pow_pos_nonneg; lia).
    unfold Qlt, Qmult, inject_Z; cbn. nia.
  - assert (2 ^ Z.succ ln ≤ 2 ^ j * 2 ^ ld * 2 ^ (- s)) as Hp.
    { rewrite <- !Z.pow_add_r by lia. apply Z.pow_le_mono_r; lia. }
    assert (0 < 2 ^ (- s)) as Hpos by (apply Z.pow_pos_nonneg; lia).
    apply Qlt_shift_div_r; [apply inject_pow_pos; lia|].
    unfold Qlt, Qmult, inject_Z; cbn. nia.
Qed.

Lemma scale_succ x s : (Float.scale x (s + 1) == 2 * Float.scale x s)%Q.
Proof.
  unfold Float.scale.
  destruct (Z.leb_spec 0 s), (Z.leb_spec 0 (s + 1)); try lia.
  - rewrite Z.pow_add_r by lia. rewrite inject_Z_mult.
    change (inject_Z (2 ^ 1)) with 2%Q. ring.
  - assert (s = -1) as -> by lia.
    change (x * 1 == 2 * (x / 2))%Q. field.
  - replace (- s) with (- (s + 1) + 1) by lia.
    rewrite Z.pow_add_r by lia. rewrite inject_Z_mult.
    change (inject_Z (2 ^ 1)) with 2%Q.
    assert (0 < inject_Z (2 ^ (- (s + 1))))%Q as Hp by (apply inject_pow_pos; lia).
    field. intros Hz. rewrite Hz in Hp. by apply (Qlt_irrefl 0).
Qed.

(** The significand of a positive number takes exactly 53 bits. *)
Lemma exponent_binade (n d : Pos.t) :
  (inject_Z (2 ^ 52) <= Float.scale (Zpos n # d) (- Float.exponent (Zpos n # d)))%Q
  ∧ (Float.scale (Zpos n # d) (- Float.exponent (Zpos n # d)) < inject_Z (2 ^ 53))%Q.
Proof.
  unfold Float.exponent. cbn [Qnum Qden].
  set (k := Z.log2 (Zpos n) - Z.log2 (Zpos d)).
  destruct (Qle_bool (inject_Z (2 ^ 52)) (Float.scale (Zpos n # d) (52 - k)))
    eqn:E.
  - replace (- (k - 52)) with (52 - k) by lia. split.
    + by apply Qle_bool_iff.
    + apply scale_upper; unfold k; lia.
  - replace (- (k - 53)) with (52 - k + 1) by lia. split.
    + apply scale_lower; unfold k; lia.
    + rewrite scale_succ.
      assert (Float.scale (Zpos n # d) (52 - k) < inject_Z (2 ^ 52))%Q as Hlt.
      { apply Qnot_le_lt. intros H%Qle_bool_iff. congruence. }
      change (inject_Z (2 ^ 53)) with (2 * inject_Z (2 ^ 52))%Q.
      apply Qmult_lt_l; [reflexivity | exact Hlt].
Qed.

Lemma roundPositive_pos (n d : Pos.t) : (0 < Float.roundPositive (Zpos n # d))%Q.
Proof.
  unfold Float.roundPositive. rewrite Qred_correct. apply scale_pos.
  change 0%Q with (inject_Z 0). rewrite <- Zlt_Qlt.
  pose proof (nearestEven_ge _ _ (proj1 (exponent_binade n d))). lia.
Qed.

(** Rounding keeps the sign. *)
Lemma round_sign x : Qle_bool (Float.round x) 0 = Qle_bool x 0.
Proof.
  destruct x as [[|n|n] d]; unfold Float.round; cbn [Qnum].
  - reflexivity.
  - pose proof (roundPositive_pos n d) as H.
    transitivity false; [|reflexivity].
    apply not_true_is_false. intros Hle%Qle_bool_iff.
    by apply (Qlt_not_le _ _ H).
  - pose proof (roundPositive_pos n d) as H.
    transitivity true; [|reflexivity].
    apply Qle_bool_iff. change (- (Z.neg n # d))%Q with (Z.pos n # d).
    apply Qlt_le_weak. apply Qlt_minus_iff. rewrite Qplus_0_l.
    by rewrite Qopp_involutive.
Qed.

(** A quotient between 0 and 1 rounds to a double between 0 and 1. *)
Lemma round_unit x : (0 <= x)%Q → (x <= 1)%Q → (0 <= Float.round x)%Q ∧ (Float.round x <= 1)%Q.
Proof.
  destruct x as [[|n|n] d]; unfold Float.round; cbn [Qnum]; intros H0 H1.
  - split; [apply Qle_refl | discriminate].
  - unfold Float.roundPositive.
    set (x := Z.pos n # d) in *. set (e := Float.exponent x).
    assert (e < 0) as He.
    { unfold e, Float.exponent, x. cbn [Qnum Qden].
      assert (Z.log2 (Z.pos n) ≤ Z.log2 (Z.pos d)).
      { apply Z.log2_le_mono. unfold Qle in H1. cbn in H1. lia. }
      destruct (Qle_bool _ _); lia. }
    assert (0 < 2 ^ (- e)) as Hpos by (apply Z.pow_pos_nonneg; lia).
    assert (0 < inject_Z (2 ^ (- e)))%Q as HposQ.
    { change 0%Q with (inject_Z 0). by rewrite <- Zlt_Qlt. }
    assert (Float.scale x (- e) = (x * inject_Z (2 ^ (- e)))%Q) as Hy.
    { unfold Float.scale. destruct (Z.leb_spec 0 (- e)); [done | lia]. }
    rewrite Qred_correct, Hy.
    set (m := Float.nearestEven (x * inject_Z (2 ^ (- e)))).
    assert (0 ≤ m) as Hm0.
    { apply nearestEven_ge. change (inject_Z 0) with 0%Q.
      apply Qmult_le_0_compat; [exact H0 | by apply Qlt_le_weak]. }
    assert (m ≤ 2 ^ (- e)) as Hm1.
    { apply nearestEven_le. rewrite <- (Qmult_1_l (inject_Z (2 ^ (- e)))) at 2.
      by apply Qmult_le_compat_r; [|apply Qlt_le_weak]. }
    unfold Float.scale. destruct (Z.leb_spec 0 e); [lia|].
    split.
    + apply Qle_shift_div_l; [exact HposQ|]. rewrite Qmult_0_l.
      change 0%Q with (inject_Z 0). by rewrite <- Zle_Qle.
    + apply Qle_shift_div_r; [exact HposQ|]. rewrite Qmult_1_l.
      by rewrite <- Zle_Qle.
  - unfold Qle in H0. cbn in H0. lia.
Qed.

(** ** Sanity checks of the embedding on concrete inputs *)

Example split_empty : Str.split_whitespace "" = [""].
Proof. reflexivity. Qed.

Example split_inner : Str.split_whitespace "a  b c" = ["a"; "b"; "c"].
Proof. reflexivity. Qed.

Example split_ends : Str.split_whitespace " a " = [""; "a"; ""].
Proof. reflexivity. Qed.

Example trim_example : Str.trim "  um, I  think " = "um, I  think".
Proof. reflexivity. Qed.

Example filler_um : RegExp.countMatches "um" "Um, an umbrella, um um" = 3.
Proof. reflexivity. Qed.

Example filler_phrase : RegExp.countMatches "kind of" "this kind of sort of thing" = 1.
Proof. reflexivity. Qed.

Example scenario1 :
  let s := _processTranscript "this is great and wonderful" false fresh in
  wordCount s = 5 ∧ positive (emotionScores s) = 2 ∧ size (uniqueWords s) = 5%nat.
Proof. vm_compute. auto. Qed.

Example scenario2 :
  let s := _processTranscript "um, I think, uh, this is fine" false fresh in
  fillerWordCount s = 2 ∧ neutral (emotionScores s) = 1.
Proof. vm_compute. auto. Qed.

Example scenario4 :
  let s := _processTranscript "hello world" false
             (_processTranscript "hello wor" true fresh) in
  wordCount s = 2 ∧ uniqueWords s = {[ "hello"; "wor"; "world" ]}.
Proof. vm_compute. auto. Qed.

Example double_tenth :
  Float.round (1 # 10) = (3602879701896397 # 36028797018963968)%Q.
Proof. reflexivity. Qed.

Example double_exact : Float.div (inject_Z 3) (inject_Z 4) = (3 # 4)%Q.
Proof. reflexivity. Qed.

Example toFixed_below_tie :
  Num.toFixed2 (Float.div (inject_Z 201) (inject_Z 200)) = "1.00".
Proof. reflexivity. Qed.

Example toFixed_third : Num.toFixed2 (2 # 3) = "0.67".
Proof. reflexivity. Qed.

Example toFixed_tie : Num.toFixed2 (1 # 8) = "0.13".
Proof. reflexivity. Qed.

Example toFixed_zero : Num.toFixed2 0%Q = "0.00".
Proof. reflexivity. Qed.

Example toFixed_two : Num.toFixed2 (inject_Z 2) = "2.00".
Proof. reflexivity. Qed.

Example analytics_example :
  analytics (_processTranscript "this is great and fine" false fresh) 1000 31000
  = {| Analytics.speakingPace := 10;
       Analytics.fillerWordCount := 0;
       Analytics.vocabularyDiversity := "1.00";
       Analytics.emotionalTone :=
         {| Tone.positive := JString "0.50"; Tone.negative := JString "0.00";
            Tone.neutral := JString "0.50" |};
       Analytics.duration := 30 |}.
Proof. vm_compute. reflexivity. Qed.

Example stop_then_end :
  trace (host (after [CallSetAnalyticsUpdateCallback (Some 7%nat); CallStart;
                      OnEnd; CallStop; OnEnd]
                 (construct true (quietHost 1000 500))))
  = [EngineStart; IntervalSet 1; ConsoleLog "Speech recognition started";
     EngineStart;
     EngineStop; IntervalCleared (Some 1%nat);
     AnalyticsUpdate 7%nat
       {| Analytics.speakingPace := 0; Analytics.fillerWordCount := 0;
          Analytics.vocabularyDiversity := "0.00";
          Analytics.emotionalTone :=
            {| Tone.positive := JNumber 0; Tone.negative := JNumber 0;
               Tone.neutral := JNumber 1 |};
          Analytics.duration := 1 |} true;
     ConsoleLog "Speech recognition stopped";
     IntervalCleared (Some 1%nat);
     AnalyticsUpdate 7%nat
       {| Analytics.speakingPace := 0; Analytics.fillerWordCount := 0;
          Analytics.vocabularyDiversity := "0.00";
          Analytics.emotionalTone :=
            {| Tone.positive := JNumber 0; Tone.negative := JNumber 0;
               Tone.neutral := JNumber 1 |};
          Analytics.duration := 2 |} true].
Proof. vm_compute. reflexivity. Qed.

Example unsupported_platform :
  let w := after [CallStart; OnResult [("hello", true)]; CallStop]
             (construct false (quietHost 1000 500)) in
  trace (host w)
  = [ConsoleError "Speech recognition not supported in this browser"]
  ∧ getTranscript (this w) = JUndefined.
Proof. vm_compute. auto. Qed.

(** ** Characters *)

Lemma isWhiteSpace_toLowerCase c :
  Char.isWhiteSpace (Char.toLowerCase c) = Char.isWhiteSpace c.
Proof. by_cases_on_char c. Qed.

Lemma cleanPattern_keeps c :
  negb (cleanPattern c) = Char.isAlnum c || Char.isWhiteSpace c.
Proof. by_cases_on_char c. Qed.

Lemma isAlnum_not_space c :
  Char.isWhiteSpace c = false →
  Char.isAlnum c || Char.isWhiteSpace c = Char.isAlnum c.
Proof. intros ->. apply orb_false_r. Qed.

(** ** Trimming and splitting *)

Lemma trimStart_head s :
  Str.trimStart s = "" ∨
  ∃ c r, Str.trimStart s = String c r ∧ Char.isWhiteSpace c = false.
Proof.
  induction s as [|c r IH]; simpl; [by left|].
  destruct (Char.isWhiteSpace c) eqn:E; [exact IH|].
  right. by exists c, r.
Qed.

Lemma trimStart_blank s : Str.blank s = true → Str.trimStart s = "".
Proof.
  unfold Str.blank. induction s as [|c r IH]; simpl; [done|].
  intros [-> Hr]%andb_true_iff. auto.
Qed.

Lemma tokens_go_trimStart s :
  tokens_go false (Str.trimStart s) = tokens_go false s.
Proof.
  induction s as [|c r IH]; simpl; [done|].
  destruct (Char.isWhiteSpace c) eqn:E; [exact IH|].
  simpl. by rewrite E.
Qed.

Lemma tokens_go_trimEnd s : ∀ b, tokens_go b (Str.trimEnd s) = tokens_go b s.
Proof.
  induction s as [|c r IH]; intros b; [done|].
  cbn [Str.trimEnd].
  destruct (Char.isWhiteSpace c && Str.isEmpty (Str.trimEnd r)) eqn:E.
  - apply andb_true_iff in E as [E1 E2]. cbn [tokens_go]. rewrite E1, <- IH.
    by destruct (Str.trimEnd r).
  - cbn [tokens_go]. by rewrite !IH.
Qed.

Lemma tokens_go_toLowerCase s :
  ∀ b, tokens_go b (Str.toLowerCase s) = tokens_go b s.
Proof.
  induction s as [|c r IH]; intros b; simpl; [done|].
  rewrite isWhiteSpace_toLowerCase.
  destruct (Char.isWhiteSpace c); by rewrite IH.
Qed.

Lemma endsInSeparator_toLowerCase s :
  ∀ b, endsInSeparator b (Str.toLowerCase s) = endsInSeparator b s.
Proof.
  induction s as [|c r IH]; intros b; simpl; [done|].
  by rewrite isWhiteSpace_toLowerCase.
Qed.

Lemma endsInSeparator_trimEnd s : endsInSeparator false (Str.trimEnd s) = false.
Proof.
  induction s as [|c r IH]; [done|].
  cbn [Str.trimEnd].
  destruct (Str.trimEnd r) as [|c2 r2] eqn:Er; cbn [Str.isEmpty].
  - rewrite andb_true_r. by destruct (Char.isWhiteSpace c) eqn:E; simpl.
  - rewrite andb_false_r. exact IH.
Qed.

(** The pieces of a split are one more than the separator runs; counted
    against the tokens, a run that starts the text or ends it has no token
    on one side. *)
Lemma length_split_go s :
  ∀ acc b,
    (length (Str.split_go acc b s) + Nat.b2n b =
     1 + tokens_go (negb b) s + Nat.b2n (endsInSeparator b s))%nat.
Proof.
  induction s as [|c r IH]; intros acc b; simpl.
  - lia.
  - destruct (Char.isWhiteSpace c) eqn:E.
    + destruct b; simpl.
      * specialize (IH acc true). simpl in IH. lia.
      * specialize (IH EmptyString true). simpl in IH. lia.
    + specialize (IH (String c acc) false). simpl in IH.
      destruct b; simpl; lia.
Qed.

(** The word list of a fragment has one entry per token of the raw text,
    and one entry, the empty string, when the text has no token. *)
Lemma length_words t : length (words t) = Nat.max 1 (tokenCount t).
Proof.
  unfold words, Str.split_whitespace, tokenCount, Str.trim.
  pose proof (length_split_go
                (Str.toLowerCase (Str.trimEnd (Str.trimStart t))) "" false) as H.
  rewrite endsInSeparator_toLowerCase, endsInSeparator_trimEnd in H.
  rewrite tokens_go_toLowerCase, tokens_go_trimEnd in H. simpl in H.
  rewrite <- (tokens_go_trimStart t).
  destruct (trimStart_head t) as [E | (c & r & E & Hc)]; rewrite E in *.
  - simpl in *. lia.
  - simpl in *. rewrite Hc in *. simpl in *. lia.
Qed.

Lemma words_blank t : Str.blank t = true → words t = [""].
Proof.
  intros H. unfold words, Str.trim. by rewrite trimStart_blank.
Qed.

Lemma tokenCount_blank t : Str.blank t = true → tokenCount t = 0%nat.
Proof.
  unfold tokenCount, Str.blank. induction t as [|c r IH]; simpl; [done|].
  intros [-> Hr]%andb_true_iff. auto.
Qed.

Lemma tokenCount_not_blank t : Str.blank t = false → (1 ≤ tokenCount t)%nat.
Proof.
  unfold tokenCount, Str.blank. induction t as [|c r IH]; simpl; [done|].
  destruct (Char.isWhiteSpace c); simpl; [exact IH | lia].
Qed.

(** ** What [_processTranscript] touches *)

Lemma forEach_preserves {A} (P : Session → Prop) (f : A → Session → Session) l :
  (∀ x s, P s → P (f x s)) → ∀ s, P s → P (forEach l f s).
Proof.
  intros Hf. unfold forEach.
  induction l as [|x l IH]; intros s Hs; simpl; auto.
Qed.

Lemma wordCount_processWord w s : wordCount (processWord w s) = wordCount s.
Proof. unfold processWord. by destruct (0 <? _). Qed.

Lemma wordCount_countFiller t p s : wordCount (countFiller t p s) = wordCount s.
Proof. unfold countFiller. by destruct (0 <? _). Qed.

Lemma uniqueWords_countFiller t p s :
  uniqueWords (countFiller t p s) = uniqueWords s.
Proof. unfold countFiller. by destruct (0 <? _). Qed.

Lemma wordCount_forEach_processWord l s :
  wordCount (forEach l processWord s) = wordCount s.
Proof.
  apply (forEach_preserves (fun x => wordCount x = wordCount s)); [|done].
  intros w x Hx. by rewrite wordCount_processWord.
Qed.

Lemma wordCount_forEach_countFiller t l s :
  wordCount (forEach l (countFiller t) s) = wordCount s.
Proof.
  apply (forEach_preserves (fun x => wordCount x = wordCount s)); [|done].
  intros w x Hx. by rewrite wordCount_countFiller.
Qed.

Lemma uniqueWords_forEach_countFiller t l s :
  uniqueWords (forEach l (countFiller t) s) = uniqueWords s.
Proof.
  apply (forEach_preserves (fun x => uniqueWords x = uniqueWords s)); [|done].
  intros w x Hx. by rewrite uniqueWords_countFiller.
Qed.

Lemma wordCount_final t s :
  wordCount (_processTranscript t false s)
  = wordCount s + Z.of_nat (length (words t)).
Proof.
  unfold _processTranscript. cbn [negb].
  by rewrite wordCount_forEach_countFiller, wordCount_forEach_processWord.
Qed.

(** Every final fragment adds its token count to [wordCount], a fragment
    without a token adds one. *)
Lemma wordCount_processFinals fragments :
  ∀ s, wordCount (processFinals fragments s)
       = wordCount s
         + Z.of_nat (sum_list_with (fun t => Nat.max 1 (tokenCount t)) fragments).
Proof.
  unfold processFinals.
  induction fragments as [|t l IH]; intros s; simpl; [lia|].
  rewrite IH, wordCount_final, length_words. lia.
Qed.

(** On fragments that all hold a token, [wordCount] is the sum of the token
    counts. *)
Lemma wordCount_processFinals_not_blank fragments s :
  Forall (fun t => Str.blank t = false) fragments →
  wordCount (processFinals fragments s)
  = wordCount s + Z.of_nat (sum_list_with tokenCount fragments).
Proof.
  intros H. rewrite wordCount_processFinals. do 2 f_equal.
  induction H as [|t l Ht _ IH]; simpl; [done|].
  apply tokenCount_not_blank in Ht. lia.
Qed.

(** ** Blank fragments *)

Lemma eqIgnoreCase_letter_space p c :
  Char.isLower p = true → Char.isWhiteSpace c = true →
  Char.eqIgnoreCase p c = false.
Proof.
  intros Hp Hc.
  destruct c as [[] [] [] [] [] [] [] []];
    try (vm_compute in Hc; discriminate Hc);
    destruct p as [[] [] [] [] [] [] [] []]; vm_compute in Hp |- *; congruence.
Qed.

Lemma countMatches_go_blank p pr t :
  Char.isLower p = true → Str.blank t = true →
  ∀ skip prev, RegExp.countMatches_go (String p pr) skip prev t = 0.
Proof.
  intros Hp. unfold Str.blank.
  induction t as [|c r IH]; [done|].
  cbn [Str.all]. intros [Hc Hr]%andb_true_iff skip prev.
  cbn [RegExp.countMatches_go]. destruct skip as [|k]; [|by apply IH].
  unfold RegExp.matchAt. cbn [RegExp.matchLiteral].
  rewrite (eqIgnoreCase_letter_space p c Hp Hc), andb_false_r. by apply IH.
Qed.

Lemma countFiller_blank p pr t s :
  Char.isLower p = true → Str.blank t = true →
  countFiller t (String p pr) s = s.
Proof.
  intros Hp Ht. unfold countFiller, RegExp.countMatches.
  by rewrite countMatches_go_blank.
Qed.

Lemma fillers_blank t s :
  Str.blank t = true → forEach fillerWords (countFiller t) s = s.
Proof.
  intros H. unfold forEach, fillerWords. cbn [fold_left].
  repeat (rewrite countFiller_blank; [| reflexivity | exact H]).
  reflexivity.
Qed.

(** C2, at the failing input.  A session that receives the empty string as
    its only final fragment ends with [wordCount = 1], although the
    fragment has no white-space-delimited token: [split] hands back one
    empty piece for the empty string and [words.length] is added as it is.
    By [wordCount_processFinals] every blank final fragment counts one,
    and by [wordCount_processFinals_not_blank] the count is the sum of the
    token counts as soon as no fragment is blank. *)
Theorem C2_empty_final_fragment_counts_one :
  wordCount (processFinals [""] (resetSession true (Some 1000) (Some 1%nat))) = 1
  ∧ sum_list_with tokenCount [""] = 0%nat
  ∧ wordCount (processFinals ["hello world"; "   "; "again"]
                 (resetSession true (Some 1000) (Some 1%nat))) = 4
  ∧ sum_list_with tokenCount ["hello world"; "   "; "again"] = 3%nat.
Proof. vm_compute. auto. Qed.

(** C5, the behaviour on blank fragments.  An empty or white-space-only
    fragment holds no token and is processed without raising
    ([_processTranscript] is total); as an interim fragment it leaves the
    session as it was; as a final fragment it leaves [uniqueWords],
    [fillerWordCount] and [emotionScores] as they were but adds one to
    [wordCount], for the empty piece that [split] derives from the empty
    string. *)
Theorem C5_blank_fragment_adds_one_word t s :
  Str.blank t = true →
  tokenCount t = 0%nat
  ∧ _processTranscript t true s = s
  ∧ _processTranscript t false s = set_wordCount (wordCount s + 1) s.
Proof.
  intros H. split; [by apply tokenCount_blank|]. unfold _processTranscript.
  rewrite (words_blank t H). cbn [negb length forEach fold_left].
  split; [reflexivity|].
  change (processWord "" ?x) with x.
  by rewrite fillers_blank.
Qed.

Lemma C5_blank_fragment_adds_one_word_witness :
  Str.blank "  " = true
  ∧ _processTranscript "  " true fresh = fresh
  ∧ wordCount (_processTranscript "  " false fresh) = wordCount fresh + 1.
Proof.
  split; [reflexivity|].
  destruct (C5_blank_fragment_adds_one_word "  " fresh eq_refl) as (_ & Hi & Hf).
  split; [exact Hi|]. rewrite Hf. reflexivity.
Defined.

(** ** Clean tokens *)

Lemma filter_agree (f g : ascii → bool) (P : ascii → bool) s :
  (∀ c, P c = true → f c = g c) → Str.all P s = true →
  Str.filter f s = Str.filter g s.
Proof.
  intros Hfg. induction s as [|c r IH]; [done|].
  cbn [Str.all Str.filter]. intros [Hc Hr]%andb_true_iff.
  by rewrite (Hfg c Hc), (IH Hr).
Qed.

Lemma filter_ext (f g : ascii → bool) s :
  (∀ c, f c = g c) → Str.filter f s = Str.filter g s.
Proof.
  intros Hfg. induction s as [|c r IH]; [done|].
  cbn [Str.filter]. by rewrite Hfg, IH.
Qed.

Lemma all_rev_app f a : ∀ b,
  Str.all f (String.rev_app a b) = Str.all f a && Str.all f b.
Proof.
  induction a as [|c r IH]; intros b; [done|].
  cbn [String.rev_app Str.all]. rewrite IH. cbn [Str.all].
  by destruct (f c), (Str.all f r), (Str.all f b).
Qed.

Lemma all_rev f a : Str.all f (String.rev a) = Str.all f a.
Proof. unfold String.rev. rewrite all_rev_app. simpl. apply andb_true_r. Qed.

(** No piece of a split holds a white-space character. *)
Lemma split_go_no_space s :
  ∀ acc b piece,
    Str.all (fun c => negb (Char.isWhiteSpace c)) acc = true →
    piece ∈ Str.split_go acc b s →
    Str.all (fun c => negb (Char.isWhiteSpace c)) piece = true.
Proof.
  induction s as [|c r IH]; intros acc b piece Hacc; cbn [Str.split_go].
  - intros ->%list_elem_of_singleton. by rewrite all_rev.
  - destruct (Char.isWhiteSpace c) eqn:E.
    + destruct b; [by apply IH|].
      intros [-> | H]%elem_of_cons; [by rewrite all_rev|].
      by apply (IH "" true).
    + apply IH. cbn [Str.all]. by rewrite E.
Qed.

Lemma words_no_space transcript word :
  word ∈ words transcript →
  Str.all (fun c => negb (Char.isWhiteSpace c)) word = true.
Proof. unfold words, Str.split_whitespace. by apply split_go_no_space. Qed.

(** C8, as the code has it.  [cleanWord] deletes from a word every
    character that is not an ASCII letter, an ASCII digit or white space:
    the underscore and the letters outside ASCII go as well.  The words of
    a fragment hold no white space, so their clean token is what is left of
    them in ASCII letters and digits.  A word whose clean token is empty
    changes nothing in the session. *)
Theorem C8_cleanWord_keeps_ascii_alnum word :
  cleanWord word
  = Str.filter (fun c => Char.isAlnum c || Char.isWhiteSpace c) word
  ∧ (∀ transcript, word ∈ words transcript →
       cleanWord word = Str.filter Char.isAlnum word)
  ∧ (∀ s, cleanWord word = "" → processWord word s = s).
Proof.
  assert (cleanWord word
          = Str.filter (fun c => Char.isAlnum c || Char.isWhiteSpace c) word)
    as Hclean.
  { unfold cleanWord, Str.deleteAll. apply filter_ext, cleanPattern_keeps. }
  split; [exact Hclean|]. split.
  - intros transcript Hin. rewrite Hclean.
    apply (filter_agree _ _ (fun c => negb (Char.isWhiteSpace c))).
    + intros c Hc. apply isAlnum_not_space. by destruct (Char.isWhiteSpace c).
    + by apply (words_no_space transcript).
  - intros s H. unfold processWord. by rewrite H.
Qed.

Lemma C8_cleanWord_keeps_ascii_alnum_witness :
  "a_b," ∈ words "Well, A_b, ok"
  ∧ cleanWord "a_b," = Str.filter Char.isAlnum "a_b,"
  ∧ cleanWord "?!" = ""
  ∧ processWord "?!" fresh = fresh.
Proof.
  assert ("a_b," ∈ words "Well, A_b, ok") as Hin.
  { vm_compute. apply elem_of_cons. right. apply elem_of_cons. by left. }
  split; [exact Hin|].
  split; [exact (proj1 (proj2 (C8_cleanWord_keeps_ascii_alnum "a_b,")) _ Hin)|].
  split; [reflexivity|].
  exact (proj2 (proj2 (C8_cleanWord_keeps_ascii_alnum "?!")) fresh eq_refl).
Defined.

(** C8, as the claim has it: the underscore is a word character and would
    stay, and so would the letter U+00E9; the code deletes both. *)
Lemma C8_counterexample :
  let e_acute := String (ascii_of_N 233) "" in
  cleanToken_spec "a_b" = "a_b" ∧ cleanWord "a_b" = "ab"
  ∧ cleanToken_spec ("caf" +:+ e_acute) = "caf" +:+ e_acute
  ∧ cleanWord ("caf" +:+ e_acute) = "caf"
  ∧ cleanWord "a_b" ≠ cleanToken_spec "a_b".
Proof. vm_compute. repeat split; try reflexivity. discriminate. Qed.

(** ** Distinct words against counted words *)

Lemma size_add_word (x : string) (X : gset string) :
  (size ({[x]} ∪ X) ≤ S (size X))%nat.
Proof.
  rewrite size_union_alt, size_singleton.
  assert (X ∖ {[x]} ⊆ X) as Hsub by apply subseteq_difference_l, reflexivity.
  apply subseteq_size in Hsub. lia.
Qed.

Lemma size_processWord w s :
  (size (uniqueWords (processWord w s)) ≤ S (size (uniqueWords s)))%nat.
Proof.
  unfold processWord. destruct (0 <? _); simpl; [apply size_add_word | lia].
Qed.

Lemma size_forEach_processWord l :
  ∀ s, (size (uniqueWords (forEach l processWord s))
        ≤ size (uniqueWords s) + length l)%nat.
Proof.
  unfold forEach. induction l as [|w l IH]; intros s; simpl; [lia|].
  specialize (IH (processWord w s)). pose proof (size_processWord w s). lia.
Qed.

Lemma uniqueWithinCount_final t s :
  uniqueWithinCount s → uniqueWithinCount (_processTranscript t false s).
Proof.
  unfold uniqueWithinCount. intros H.
  rewrite wordCount_final. unfold _processTranscript. cbn [negb].
  rewrite uniqueWords_forEach_countFiller.
  pose proof (size_forEach_processWord (words t)
                (set_wordCount (wordCount s + Z.of_nat (length (words t))) s)) as Hs.
  simpl in Hs. lia.
Qed.

Lemma vocabularyDiversity_bounds s :
  uniqueWithinCount s → 0 < wordCount s →
  (0 <= vocabularyDiversity s)%Q ∧ (vocabularyDiversity s <= 1)%Q.
Proof.
  unfold uniqueWithinCount, vocabularyDiversity. intros H Hw.
  destruct (0 <? wordCount s) eqn:E; [|apply Z.ltb_ge in E; lia].
  assert (0 < inject_Z (wordCount s))%Q as Hpos.
  { change 0%Q with (inject_Z 0). by rewrite <- Zlt_Qlt. }
  apply round_unit.
  - apply Qle_shift_div_l; [exact Hpos|]. rewrite Qmult_0_l.
    change 0%Q with (inject_Z 0). rewrite <- Zle_Qle. lia.
  - apply Qle_shift_div_r; [exact Hpos|]. rewrite Qmult_1_l.
    by rewrite <- Zle_Qle.
Qed.

Lemma vocabularyDiversity_zero s :
  wordCount s ≤ 0 →
  vocabularyDiversity s = 0%Q
  ∧ Num.toFixed2 (vocabularyDiversity s) = "0.00".
Proof.
  unfold vocabularyDiversity. intros H.
  destruct (0 <? wordCount s) eqn:E; [apply Z.ltb_lt in E; lia|].
  split; reflexivity.
Qed.

(** ** The methods, equation by equation *)

Lemma Qle_bool_div_1000 y : Qle_bool (y / 1000) 0 = Qle_bool y 0.
Proof.
  destruct y as [n d]. unfold Qle_bool, Qdiv, Qmult, Qinv. cbn.
  destruct (Z.leb_spec (n * 1 * 1) 0), (Z.leb_spec (n * 1) 0); lia.
Qed.

Lemma Qle_bool_div_60 y : Qle_bool (y / 60) 0 = Qle_bool y 0.
Proof.
  destruct y as [n d]. unfold Qle_bool, Qdiv, Qmult, Qinv. cbn.
  destruct (Z.leb_spec (n * 1 * 1) 0), (Z.leb_spec (n * 1) 0); lia.
Qed.

Lemma positive_duration now t : Num.positive (durationMinutes now t) = (t <? now).
Proof.
  unfold Num.positive, durationMinutes, Float.div.
  rewrite round_sign, Qle_bool_div_60, round_sign, Qle_bool_div_1000.
  unfold Qle_bool. cbn.
  destruct (Z.leb_spec ((now - t) * 1) 0), (Z.ltb_spec t now); simpl; lia.
Qed.

Lemma snapshots_app a b : snapshots (a ++ b) = snapshots a ++ snapshots b.
Proof.
  induction a as [|e a IH]; [done|].
  destruct e; simpl; by rewrite ?IH.
Qed.

(** *** [_updateAnalytics] *)

(** What one snapshot computation hands to the host, as a function of the
    object and of the clock reading. *)
Lemma updateAnalytics_spec isFinal w :
  (_updateAnalytics isFinal w).1 = Normal ()
  ∧ this (_updateAnalytics isFinal w).2 = this w
  ∧ trace (host (_updateAnalytics isFinal w).2)
    = trace (host w) ++
      match props (this w), onAnalyticsUpdate (this w) with
      | Some s, Some cb =>
          match truthyTime (startTime s) with
          | Some t => [AnalyticsUpdate cb (analytics s t (nextReading w)) isFinal]
          | None => []
          end
      | _, _ => []
      end.
Proof. js_run w; by rewrite ?app_nil_r. Qed.

Lemma updateAnalytics_idle isFinal w :
  (∀ s, props (this w) = Some s → truthyTime (startTime s) = None) →
  _updateAnalytics isFinal w = (Normal (), w).
Proof.
  js_world w; js_unfold; cbn; [|done].
  intros H. by rewrite (H s eq_refl).
Qed.

(** *** [start] *)

Lemma start_completion w : (start w).1 = Normal ().
Proof. by js_run w. Qed.

Lemma start_this w :
  this (start w).2
  = this (assign (if engineRaises w then set_isRecording true
                  else fun _ => resetSession true (Some (nextReading w))
                                  (Some (handles (host w)))) w).2.
Proof. by js_run w. Qed.

Lemma start_raised w :
  engineRaises w = true → is_Some (props (this w)) →
  trace (host (start w).2)
  = trace (host w) ++ [ConsoleError "Error starting speech recognition:"].
Proof.
  js_world w; js_unfold; cbn; [|by intros _ [? ?]].
  by intros -> _.
Qed.

Lemma start_degraded w : props (this w) = None → start w = (Normal (), w).
Proof. js_world w; [done|]. by intros _. Qed.

(** *** [stop] *)

Lemma stop_completion w : (stop w).1 = Normal ().
Proof. by js_run w. Qed.

Lemma stop_this w : this (stop w).2 = this (assign (set_isRecording false) w).2.
Proof. by js_run w. Qed.

Lemma stop_raised w :
  engineRaises w = true → is_Some (props (this w)) →
  trace (host (stop w).2)
  = trace (host w) ++ [ConsoleError "Error stopping speech recognition:"].
Proof.
  js_world w; js_unfold; cbn; [|by intros _ [? ?]].
  by intros -> _.
Qed.

Lemma stop_degraded w : props (this w) = None → stop w = (Normal (), w).
Proof. js_world w; [done|]. by intros _. Qed.

Lemma stop_trace w s :
  props (this w) = Some s → engineRaises w = false →
  trace (host (stop w).2)
  = trace (host w) ++
    [EngineStop; IntervalCleared (analyticsTimer s)] ++
    match truthyTime (startTime s) with
    | Some t =>
        if t <? nextReading w
        then match onAnalyticsUpdate (this w) with
             | Some cb =>
                 [AnalyticsUpdate cb
                    (analytics s t (clock (host w) (S (ticks (host w))))) true]
             | None => []
             end
        else [ConsoleWarn "Speech duration too short to calculate analytics."]
    | None => []
    end ++
    [ConsoleLog "Speech recognition stopped"].
Proof.
  destruct w as [[[s'|] onT onA] h]; js_unfold; cbn; [|done].
  intros [= ->] ->. cbn.
  destruct (truthyTime (startTime s)) as [t|] eqn:Et; cbn.
  - rewrite positive_duration. destruct (t <? clock h (ticks h)); cbn.
    + rewrite Et. destruct onA; cbn; by rewrite <- ?app_assoc.
    + by rewrite <- ?app_assoc.
  - by rewrite <- ?app_assoc.
Qed.

(** *** [onresult] and the other handlers *)

Lemma assign_assign f g w :
  (assign g (assign f w).2).2 = (assign (fun s => g (f s)) w).2.
Proof. by js_run w. Qed.

Lemma onresult_loop_spec results :
  ∀ i f w, ∃ r,
    onresult_loop results i f w
    = (Normal r, (assign (processFragments results) w).2).
Proof.
  induction results as [|[t b] rest IH]; intros i f w.
  - exists (i, f). by js_run w.
  - destruct b.
    + destruct (IH i (f +:+ t) (assign (_processTranscript t false) w).2)
        as [r Hr].
      exists r.
      change (onresult_loop rest i (f +:+ t)
                (assign (_processTranscript t false) w).2
              = (Normal r, (assign (processFragments ((t, true) :: rest)) w).2)).
      rewrite Hr, assign_assign. reflexivity.
    + destruct (IH (i +:+ t) f (assign (_processTranscript t true) w).2)
        as [r Hr].
      exists r.
      change (onresult_loop rest (i +:+ t) f
                (assign (_processTranscript t true) w).2
              = (Normal r, (assign (processFragments ((t, false) :: rest)) w).2)).
      rewrite Hr, assign_assign. reflexivity.
Qed.

Lemma onresult_this results w :
  ∃ f,
    this (onresult results w).2
    = this (assign (fun s => set_transcriptText (f s)
                               (processFragments results s)) w).2.
Proof.
  destruct (onresult_loop_spec results "" "" w) as [r Hr].
  exists (fun s => Str.trim (transcriptText (processFragments results s)
                             +:+ " " +:+ r.2)).
  unfold onresult. unfold mbind at 1, M_bind at 1, getThis at 1.
  destruct (props (this w)) eqn:Ep.
  - unfold mbind at 1, M_bind at 1. rewrite Hr.
    unfold mbind at 1, M_bind at 1.
    destruct w as [[p onT onA] h]. cbn in Ep. subst p.
    js_unfold. cbn. js_cases; reflexivity.
  - destruct w as [[p onT onA] h]. cbn in Ep. subst p. reflexivity.
Qed.

Lemma onerror_this w : this (onerror w).2 = this (assign (set_isRecording false) w).2.
Proof. by js_run w. Qed.

Lemma onend_this w : this (onend w).2 = this w.
Proof. by js_run w. Qed.

(** ** Runs of actions *)

Lemma props_assign f w : props (this (assign f w).2) = f <$> props (this w).
Proof. reflexivity. Qed.

Lemma uniqueWithinCount_processFragments results :
  forallb snd results = true →
  ∀ s, uniqueWithinCount s → uniqueWithinCount (processFragments results s).
Proof.
  unfold processFragments.
  induction results as [|[t b] rest IH]; [done|].
  cbn [forallb snd]. intros [-> Hrest]%andb_true_iff s Hs.
  cbn [fold_left]. by apply IH, uniqueWithinCount_final.
Qed.

(** Every action rewrites the session properties by a function, and an
    action without interim fragments keeps the distinct words within the
    counted words. *)
Lemma perform_props a w :
  ∃ f, props (this (perform a w).2) = f <$> props (this w)
       ∧ (finalOnly a = true →
          ∀ s, uniqueWithinCount s → uniqueWithinCount (f s)).
Proof.
  destruct a as [| | cb | cb | results | | |]; cbn [perform finalOnly].
  - eexists. rewrite start_this, props_assign. split; [reflexivity|].
    intros _ s Hs. destruct (engineRaises w); [exact Hs|].
    unfold uniqueWithinCount. cbn [resetSession uniqueWords wordCount]. by rewrite size_empty.
  - eexists. rewrite stop_this, props_assign. split; [reflexivity|]. by intros _ s Hs.
  - exists id. split; [|by intros _ s Hs]. cbn. by destruct (props (this w)).
  - exists id. split; [|by intros _ s Hs]. cbn. by destruct (props (this w)).
  - destruct (onresult_this results w) as [f Hf].
    eexists. rewrite Hf, props_assign. split; [reflexivity|].
    intros Hfin s Hs. by apply (uniqueWithinCount_processFragments results Hfin).
  - eexists. rewrite onerror_this, props_assign. split; [reflexivity|]. by intros _ s Hs.
  - exists id. rewrite onend_this. split; [|by intros _ s Hs]. by destruct (props (this w)).
  - exists id. destruct (updateAnalytics_spec false w) as (_ & -> & _).
    split; [|by intros _ s Hs]. by destruct (props (this w)).
Qed.

Lemma after_uniqueWithinCount actions :
  forallb finalOnly actions = true →
  ∀ w, (∀ s, props (this w) = Some s → uniqueWithinCount s) →
       ∀ s, props (this (after actions w)) = Some s → uniqueWithinCount s.
Proof.
  unfold after.
  induction actions as [|a l IH]; [by intros _ w Hw; apply Hw|].
  cbn [forallb]. intros [Ha Hl]%andb_true_iff w Hw. cbn [fold_left].
  apply (IH Hl). intros s' Hs'.
  destruct (perform_props a w) as (f & Hf & Hinv).
  rewrite Hf in Hs'. destruct (props (this w)) as [s0|]; [|done].
  injection Hs' as <-. by apply (Hinv Ha), Hw.
Qed.

Lemma after_degraded actions :
  ∀ w, props (this w) = None → props (this (after actions w)) = None.
Proof.
  unfold after. induction actions as [|a l IH]; intros w Hw; [done|].
  cbn [fold_left]. apply IH.
  destruct (perform_props a w) as (f & -> & _). by rewrite Hw.
Qed.

(** ** The claims on the methods *)

(** C1, as the code has it.  On a session that was started, with an engine
    that stops without raising and a registered analytics callback,
    [stop()] hands over exactly one final snapshot when the clock has moved
    past [startTime]: it is the only snapshot of the call and it comes
    between the cancelling of the timer and the closing log line.  When the
    clock has not moved, [stop()] hands over no snapshot at all and logs
    the warning instead. *)
Theorem C1_stop_final_snapshot_needs_positive_duration w s t cb :
  props (this w) = Some s →
  truthyTime (startTime s) = Some t →
  onAnalyticsUpdate (this w) = Some cb →
  engineRaises w = false →
  (t < nextReading w →
   trace (host (stop w).2)
   = trace (host w) ++
     [EngineStop; IntervalCleared (analyticsTimer s);
      AnalyticsUpdate cb (analytics s t (clock (host w) (S (ticks (host w))))) true;
      ConsoleLog "Speech recognition stopped"])
  ∧ (nextReading w ≤ t →
     trace (host (stop w).2)
     = trace (host w) ++
       [EngineStop; IntervalCleared (analyticsTimer s);
        ConsoleWarn "Speech duration too short to calculate analytics.";
        ConsoleLog "Speech recognition stopped"]).
Proof.
  intros Hs Ht Hcb He. rewrite (stop_trace w s Hs He), Ht, Hcb.
  split; intros H.
  - by rewrite (proj2 (Z.ltb_lt _ _) H).
  - by rewrite (proj2 (Z.ltb_ge _ _) H).
Qed.

Lemma C1_stop_final_snapshot_needs_positive_duration_witness :
  let w := after [CallSetAnalyticsUpdateCallback (Some 7%nat); CallStart;
                  OnResult [("this is great", true)]]
             (construct true (quietHost 1000 500)) in
  finalSnapshots (trace (host (stop w).2))
  = [ {| Analytics.speakingPace := 120;
         Analytics.fillerWordCount := 0;
         Analytics.vocabularyDiversity := "1.00";
         Analytics.emotionalTone :=
           {| Tone.positive := JString "1.00"; Tone.negative := JString "0.00";
              Tone.neutral := JString "0.00" |};
         Analytics.duration := 2 |} ].
Proof.
  intros w.
  assert (props (this w) = Some (_processTranscript "this is great" false
            (set_transcriptText "this is great"
               (resetSession true (Some 1000) (Some 1%nat))))) as Hs
    by (vm_compute; reflexivity).
  destruct (C1_stop_final_snapshot_needs_positive_duration w _ 1000 7%nat Hs
              eq_refl eq_refl eq_refl) as [Hpos _].
  rewrite Hpos by (vm_compute; reflexivity).
  vm_compute. reflexivity.
Defined.

(** C1, as the claim has it: a session started and stopped within one
    reading of the clock.  [startTime] is set, the engine stops without
    raising, a callback is registered, and [stop()] delivers no snapshot:
    the warning is all there is. *)
Lemma C1_counterexample :
  let w := after [CallSetAnalyticsUpdateCallback (Some 7%nat); CallStart]
             (construct true (quietHost 1000 0)) in
  (startTime <$> props (this w)) = Some (Some 1000)
  ∧ (stop w).1 = Normal ()
  ∧ snapshots (trace (host (stop w).2)) = []
  ∧ trace (host (stop w).2)
    = trace (host w) ++
      [EngineStop; IntervalCleared (Some 1%nat);
       ConsoleWarn "Speech duration too short to calculate analytics.";
       ConsoleLog "Speech recognition stopped"].
Proof. vm_compute. auto. Qed.

(** C3, as the code has it.  In every state a manager reaches, the
    vocabulary diversity is exactly 0 (reported as "0.00") when
    [wordCount] is 0; and when no interim fragment was received, it lies
    between 0 and 1 as soon as [wordCount] is positive. *)
Theorem C3_vocabularyDiversity_bounded_without_interim
    (supported : bool) (h : Host) (actions : list Action) (s : Session) :
  props (this (after actions (construct supported h))) = Some s →
  (wordCount s = 0 →
   vocabularyDiversity s = 0%Q
   ∧ Num.toFixed2 (vocabularyDiversity s) = "0.00")
  ∧ (forallb finalOnly actions = true → 0 < wordCount s →
     (0 <= vocabularyDiversity s)%Q ∧ (vocabularyDiversity s <= 1)%Q).
Proof.
  intros Hs. split.
  - intros H0. apply vocabularyDiversity_zero. lia.
  - intros Hfin Hpos. apply vocabularyDiversity_bounds; [|exact Hpos].
    apply (after_uniqueWithinCount actions Hfin (construct supported h));
      [|exact Hs].
    destruct supported; cbn; [|done].
    intros s0 [= <-]. unfold uniqueWithinCount. cbn. by rewrite size_empty.
Qed.

Lemma C3_vocabularyDiversity_bounded_without_interim_witness :
  let actions := [CallStart; OnResult [("this is great and wonderful", true)];
                  OnResult [("great", true)]] in
  ∃ s, props (this (after actions (construct true (quietHost 1000 500)))) = Some s
       ∧ wordCount s = 6
       ∧ (0 <= vocabularyDiversity s)%Q ∧ (vocabularyDiversity s <= 1)%Q.
Proof.
  intros actions.
  destruct (props (this (after actions (construct true (quietHost 1000 500)))))
    as [s|] eqn:E; [|vm_compute in E; discriminate E].
  exists s. split; [reflexivity|].
  assert (wordCount s = 6) as Hw.
  { vm_compute in E. injection E as <-. reflexivity. }
  split; [exact Hw|].
  apply (proj2 (C3_vocabularyDiversity_bounded_without_interim
                  true (quietHost 1000 500) actions s E)); [reflexivity | lia].
Defined.

(** C3, as the claim has it: an interim fragment followed by a shorter
    final one leaves two distinct words against one counted word, and the
    diversity reported is 2. *)
Lemma C3_counterexample :
  let w := after [CallSetAnalyticsUpdateCallback (Some 7%nat); CallStart;
                  OnResult [("hello wor", false)]; OnResult [("hello", true)]]
             (construct true (quietHost 1000 500)) in
  ∃ s, props (this w) = Some s
       ∧ 0 < wordCount s
       ∧ (vocabularyDiversity s == 2)%Q
       ∧ ¬ (vocabularyDiversity s <= 1)%Q
       ∧ (Analytics.vocabularyDiversity ∘ fst <$> last (snapshots (trace (host w))))
         = Some "2.00".
Proof.
  eexists. split; [vm_compute; reflexivity|].
  split; [reflexivity|]. split; [reflexivity|].
  split; [|vm_compute; reflexivity].
  vm_compute. intros H. apply H. reflexivity.
Qed.

(** C4, as the code has it.  After a construction that found no
    recognition capability, whatever is done to the manager, [start()] and
    [stop()] return normally and leave the object and its host untouched,
    and [getTranscript()] and [isListening()] both yield [undefined]: the
    constructor returned before [transcriptText] and [isRecording] were
    assigned. *)
Theorem C4_degraded_mode (h : Host) (actions : list Action) :
  let w := after actions (construct false h) in
  start w = (Normal (), w)
  ∧ stop w = (Normal (), w)
  ∧ getTranscript (this w) = JUndefined
  ∧ isListening (this w) = JUndefined.
Proof.
  intros w.
  assert (props (this w) = None) as Hw by (by apply after_degraded).
  split; [by apply start_degraded|]. split; [by apply stop_degraded|].
  unfold getTranscript, isListening. by rewrite Hw.
Qed.

(** C4, as the claim has it: on an unsupported platform the accessors yield
    neither the empty string nor [false]. *)
Lemma C4_counterexample :
  let w := construct false (quietHost 1000 500) in
  getTranscript (this w) = JUndefined
  ∧ getTranscript (this w) ≠ JString ""
  ∧ isListening (this w) = JUndefined
  ∧ isListening (this w) ≠ JBool false.
Proof. vm_compute. repeat split; discriminate. Qed.

(** C6, as the code has it.  A snapshot of a started session with a
    registered callback carries, when the three counters sum to a positive
    total, each counter's share of the total as a string with two decimal
    places; when the total is 0 it carries the numbers 0, 0 and 1, not
    strings. *)
Theorem C6_emotionalTone_strings_or_numbers w isFinal s t cb :
  props (this w) = Some s →
  truthyTime (startTime s) = Some t →
  onAnalyticsUpdate (this w) = Some cb →
  ∃ a,
    trace (host (_updateAnalytics isFinal w).2)
    = trace (host w) ++ [AnalyticsUpdate cb a isFinal]
    ∧ (0 < totalEmotion s →
       Analytics.emotionalTone a
       = {| Tone.positive :=
              JString (Num.toFixed2 (Float.div (inject_Z (positive (emotionScores s)))
                                               (inject_Z (totalEmotion s))));
            Tone.negative :=
              JString (Num.toFixed2 (Float.div (inject_Z (negative (emotionScores s)))
                                               (inject_Z (totalEmotion s))));
            Tone.neutral :=
              JString (Num.toFixed2 (Float.div (inject_Z (neutral (emotionScores s)))
                                               (inject_Z (totalEmotion s)))) |})
    ∧ (totalEmotion s = 0 →
       Analytics.emotionalTone a
       = {| Tone.positive := JNumber 0; Tone.negative := JNumber 0;
            Tone.neutral := JNumber 1 |}).
Proof.
  intros Hs Ht Hcb.
  destruct (updateAnalytics_spec isFinal w) as (_ & _ & Htr).
  rewrite Hs, Hcb, Ht in Htr.
  eexists. split; [exact Htr|].
  cbn [analytics Analytics.emotionalTone]. unfold emotionalTone.
  split; intros H.
  - by rewrite (proj2 (Z.ltb_lt _ _) H).
  - by rewrite H.
Qed.

Lemma C6_emotionalTone_strings_or_numbers_witness :
  let w := after [CallSetAnalyticsUpdateCallback (Some 7%nat); CallStart;
                  OnResult [("great but awful and terrible", true)]]
             (construct true (quietHost 1000 500)) in
  ∃ a,
    trace (host (_updateAnalytics false w).2)
    = trace (host w) ++ [AnalyticsUpdate 7%nat a false]
    ∧ Analytics.emotionalTone a
      = {| Tone.positive := JString "0.33"; Tone.negative := JString "0.67";
           Tone.neutral := JString "0.00" |}.
Proof.
  intros w.
  destruct (props (this w)) as [s|] eqn:E; [|vm_compute in E; discriminate E].
  assert (truthyTime (startTime s) = Some 1000) as Ht.
  { vm_compute in E. injection E as <-. reflexivity. }
  assert (emotionScores s = {| positive := 1; negative := 2; neutral := 0 |})
    as He.
  { vm_compute in E. injection E as <-. reflexivity. }
  destruct (C6_emotionalTone_strings_or_numbers w false s 1000 7%nat E Ht eq_refl)
    as (a & Htr & Hpos & _).
  exists a. split; [exact Htr|].
  unfold totalEmotion in Hpos. rewrite He in Hpos.
  rewrite Hpos by reflexivity. reflexivity.
Defined.

(** C6, as the claim has it: a started session that has met no sentiment
    word reports the numbers 0, 0 and 1; none of the three fields is a
    string, so they are not in the representation of the other case. *)
Lemma C6_counterexample :
  let w := after [CallSetAnalyticsUpdateCallback (Some 7%nat); CallStart;
                  OnResult [("hello world", true)]]
             (construct true (quietHost 1000 500)) in
  (Analytics.emotionalTone ∘ fst <$> last (snapshots (trace (host w))))
  = Some {| Tone.positive := JNumber 0; Tone.negative := JNumber 0;
            Tone.neutral := JNumber 1 |}
  ∧ JNumber 0 ≠ JString "0.00" ∧ JNumber 1 ≠ JString "1.00".
Proof. vm_compute. repeat split; discriminate. Qed.

(** C7, as the code has it.  [start()] and [stop()] always return
    normally, whatever the engine does.  When the engine raises, the call
    has already written the recording flag ([true] for [start()], [false]
    for [stop()]) and does nothing more than log the error: every other
    property of the object is as it was before the call, no timer is set or
    cancelled and no snapshot is delivered. *)
Theorem C7_engine_failure_is_caught w :
  (start w).1 = Normal ()
  ∧ (stop w).1 = Normal ()
  ∧ (engineRaises w = true → is_Some (props (this w)) →
     this (start w).2 = this (assign (set_isRecording true) w).2
     ∧ trace (host (start w).2)
       = trace (host w) ++ [ConsoleError "Error starting speech recognition:"]
     ∧ this (stop w).2 = this (assign (set_isRecording false) w).2
     ∧ trace (host (stop w).2)
       = trace (host w) ++ [ConsoleError "Error stopping speech recognition:"]).
Proof.
  split; [apply start_completion|]. split; [apply stop_completion|].
  intros He Hp.
  split; [by rewrite start_this, He|].
  split; [by apply start_raised|].
  split; [apply stop_this|]. by apply stop_raised.
Qed.

Lemma C7_engine_failure_is_caught_witness :
  let w := construct true (brokenHost 1000 500) in
  (start w).1 = Normal ()
  ∧ props (this (start w).2) = Some (resetSession true None None)
  ∧ trace (host (start w).2)
    = [ConsoleError "Error starting speech recognition:"].
Proof.
  intros w.
  destruct (C7_engine_failure_is_caught w) as (Hc & _ & H).
  destruct (H eq_refl (mk_is_Some _ _ eq_refl)) as (Hthis & Htr & _).
  split; [exact Hc|]. split.
  - rewrite Hthis. reflexivity.
  - rewrite Htr. reflexivity.
Defined.

(** C7, as the claim has it: a freshly constructed manager whose engine
    raises on [start()].  The call returns normally, but the object is
    neither as it was (the recording flag is now set) nor as a completed
    start leaves it (no start time, no timer). *)
Lemma C7_counterexample :
  let w := construct true (brokenHost 1000 500) in
  let completed := (start (construct true (quietHost 1000 500))).2 in
  (start w).1 = Normal ()
  ∧ this (start w).2 ≠ this w
  ∧ this (start w).2 ≠ this completed
  ∧ isListening (this w) = JBool false
  ∧ isListening (this (start w).2) = JBool true
  ∧ (startTime <$> props (this (start w).2)) = Some None
  ∧ (startTime <$> props (this completed)) = Some (Some 1000).
Proof.
  intros w completed.
  split; [vm_compute; reflexivity|].
  split.
  { intros H. apply (f_equal isListening) in H. vm_compute in H. discriminate H. }
  split.
  { intros H. apply (f_equal (fun me => startTime <$> props me)) in H.
    vm_compute in H. discriminate H. }
  vm_compute. auto.
Qed.

(** C9.  While no session has been started, computing the analytics
    returns at once: it completes normally, delivers nothing and changes
    neither the object nor its host.  [stop()] on such a manager completes
    normally as well and delivers no snapshot. *)
Theorem C9_no_snapshot_before_start w isFinal :
  startTimeUnset (this w) →
  _updateAnalytics isFinal w = (Normal (), w)
  ∧ (stop w).1 = Normal ()
  ∧ snapshots (trace (host (stop w).2)) = snapshots (trace (host w)).
Proof.
  intros Hu. split; [|split; [apply stop_completion|]].
  - apply updateAnalytics_idle. intros s Hs.
    unfold startTimeUnset in Hu. rewrite Hs in Hu. by rewrite Hu.
  - unfold startTimeUnset in Hu.
    destruct (props (this w)) as [s|] eqn:Hs.
    + destruct (engineRaises w) eqn:He.
      * rewrite (stop_raised w He) by (rewrite Hs; eauto).
        rewrite snapshots_app. simpl. by rewrite app_nil_r.
      * rewrite (stop_trace w s Hs He), Hu, snapshots_app. simpl.
        by rewrite app_nil_r.
    + by rewrite (stop_degraded w Hs).
Qed.

Lemma C9_no_snapshot_before_start_witness :
  let w := after [CallSetAnalyticsUpdateCallback (Some 7%nat)]
             (construct true (quietHost 1000 500)) in
  startTimeUnset (this w)
  ∧ _updateAnalytics true w = (Normal (), w)
  ∧ snapshots (trace (host (stop w).2)) = [].
Proof.
  intros w.
  assert (startTimeUnset (this w)) as Hu by reflexivity.
  split; [exact Hu|].
  destruct (C9_no_snapshot_before_start w true Hu) as (Hi & _ & Hs).
  split; [exact Hi|]. rewrite Hs. reflexivity.
Defined.

(** C10.  Computing a snapshot completes normally and leaves the object as
    it is, every session property included; what it hands to the host is a
    function of the object, of the flag and of the clock reading alone.
    Hence a second computation right after the first, on the same clock
    reading, hands over the same snapshot. *)
Theorem C10_updateAnalytics_reads_only :
  ∃ report : bool → SpeechRecognitionManager → Z → list Event,
    ∀ isFinal w,
      let w1 := (_updateAnalytics isFinal w).2 in
      let w2 := (_updateAnalytics isFinal w1).2 in
      (_updateAnalytics isFinal w).1 = Normal ()
      ∧ this w1 = this w
      ∧ trace (host w1)
        = trace (host w) ++ report isFinal (this w) (nextReading w)
      ∧ (nextReading w1 = nextReading w →
         trace (host w2)
         = trace (host w1) ++ report isFinal (this w) (nextReading w)).
Proof.
  exists (fun isFinal me now =>
            match props me, onAnalyticsUpdate me with
            | Some s, Some cb =>
                match truthyTime (startTime s) with
                | Some t => [AnalyticsUpdate cb (analytics s t now) isFinal]
                | None => []
                end
            | _, _ => []
            end).
  intros isFinal w w1 w2.
  destruct (updateAnalytics_spec isFinal w) as (Hc & Hthis & Htr).
  destruct (updateAnalytics_spec isFinal w1) as (_ & _ & Htr1).
  split; [exact Hc|]. split; [exact Hthis|]. split; [exact Htr|].
  intros Hnow. subst w2. rewrite Htr1. subst w1. by rewrite Hthis, Hnow.
Qed.

Lemma C10_updateAnalytics_reads_only_witness :
  let w := after [CallSetAnalyticsUpdateCallback (Some 7%nat); CallStart;
                  OnResult [("this is fine", true)]]
             (construct true
                {| clock := fun k => if (k =? 0)%nat then 1000 else 4000;
                   ticks := 0; engine := fun _ => false; calls := 0;
                   handles := 1; trace := [] |}) in
  let w1 := (_updateAnalytics false w).2 in
  let w2 := (_updateAnalytics false w1).2 in
  this w1 = this w
  ∧ ∃ a, trace (host w1) = trace (host w) ++ [AnalyticsUpdate 7%nat a false]
         ∧ trace (host w2) = trace (host w1) ++ [AnalyticsUpdate 7%nat a false].
Proof.
  intros w w1 w2.
  assert (nextReading w1 = nextReading w) as Hn by (vm_compute; reflexivity).
  assert (trace (host w1) = trace (host w) ++
          [AnalyticsUpdate 7%nat
             {| Analytics.speakingPace := 60;
                Analytics.fillerWordCount := 0;
                Analytics.vocabularyDiversity := "1.00";
                Analytics.emotionalTone :=
                  {| Tone.positive := JString "0.00";
                     Tone.negative := JString "0.00";
                     Tone.neutral := JString "1.00" |};
                Analytics.duration := 3 |} false]) as Hw1
    by (vm_compute; reflexivity).
  subst w2 w1. clearbody w.
  destruct C10_updateAnalytics_reads_only as [report H].
  destruct (H false w) as (_ & Hthis & Htr & Hagain).
  split; [exact Hthis|].
  eexists. split; [exact Hw1|].
  rewrite (Hagain Hn). f_equal.
  apply (app_inv_head (trace (host w))). rewrite <- Htr. exact Hw1.
Defined.

(** * Further properties of the code *)

(** ** Appending and trimming *)

Lemma append_cons c a b : String c a +:+ b = String c (a +:+ b).
Proof. reflexivity. Qed.

Lemma append_nil_r s : s +:+ "" = s.
Proof. induction s as [|c r IH]; [done|]. by rewrite append_cons, IH. Qed.

Lemma append_assoc a b c : (a +:+ b) +:+ c = a +:+ (b +:+ c).
Proof. induction a as [|x r IH]; [done|]. by rewrite !append_cons, IH. Qed.

Lemma blank_append a b :
  Str.blank (a +:+ b) = Str.blank a && Str.blank b.
Proof.
  unfold Str.blank. induction a as [|c r IH]; [done|].
  rewrite append_cons. cbn [Str.all]. rewrite IH. by destruct (Char.isWhiteSpace c).
Qed.

Lemma trimEnd_blank b : Str.blank b = true → Str.trimEnd b = "".
Proof.
  unfold Str.blank. induction b as [|c r IH]; [done|].
  cbn [Str.all Str.trimEnd]. intros [-> Hr]%andb_true_iff. by rewrite (IH Hr).
Qed.

Lemma trimEnd_append_blank a b :
  Str.blank b = true → Str.trimEnd (a +:+ b) = Str.trimEnd a.
Proof.
  intros Hb. induction a as [|c r IH]; [by apply trimEnd_blank|].
  rewrite append_cons. cbn [Str.trimEnd]. by rewrite IH.
Qed.

Lemma trimStart_append a b :
  Str.trimStart (a +:+ b)
  = if Str.blank a then Str.trimStart b else Str.trimStart a +:+ b.
Proof.
  unfold Str.blank. induction a as [|c r IH]; [done|].
  rewrite append_cons. cbn [Str.trimStart Str.all].
  destruct (Char.isWhiteSpace c); [exact IH | done].
Qed.

Lemma trimEnd_idempotent s : Str.trimEnd (Str.trimEnd s) = Str.trimEnd s.
Proof.
  induction s as [|c r IH]; [done|]. cbn [Str.trimEnd].
  destruct (Char.isWhiteSpace c && Str.isEmpty (Str.trimEnd r)) eqn:E; [done|].
  cbn [Str.trimEnd]. by rewrite IH, E.
Qed.

Lemma trimStart_trimEnd s :
  Str.trimStart (Str.trimEnd (Str.trimStart s)) = Str.trimEnd (Str.trimStart s).
Proof.
  destruct (trimStart_head s) as [-> | (c & r & -> & Hc)]; [done|].
  cbn [Str.trimEnd]. rewrite Hc. cbn [andb Str.trimStart]. by rewrite Hc.
Qed.

(** [trim] strips all there is to strip. *)
Lemma trim_idempotent s : Str.trim (Str.trim s) = Str.trim s.
Proof.
  unfold Str.trim. by rewrite trimStart_trimEnd, trimEnd_idempotent.
Qed.

(** White space appended to a text does not survive [trim]. *)
Lemma trim_append_blank a b :
  Str.blank b = true → Str.trim (a +:+ b) = Str.trim a.
Proof.
  intros Hb. unfold Str.trim. rewrite trimStart_append.
  destruct (Str.blank a) eqn:Ha.
  - by rewrite (trimStart_blank b Hb), (trimStart_blank a Ha).
  - by apply trimEnd_append_blank.
Qed.

(** ** What a fragment does to the session *)

Lemma processWord_frame w s :
  isRecording (processWord w s) = isRecording s
  ∧ transcriptText (processWord w s) = transcriptText s
  ∧ startTime (processWord w s) = startTime s
  ∧ analyticsTimer (processWord w s) = analyticsTimer s
  ∧ wordCount (processWord w s) = wordCount s
  ∧ fillerWordCount (processWord w s) = fillerWordCount s.
Proof. unfold processWord. by destruct (0 <? _). Qed.

Lemma countFiller_frame t p s :
  isRecording (countFiller t p s) = isRecording s
  ∧ transcriptText (countFiller t p s) = transcriptText s
  ∧ startTime (countFiller t p s) = startTime s
  ∧ analyticsTimer (countFiller t p s) = analyticsTimer s
  ∧ wordCount (countFiller t p s) = wordCount s
  ∧ uniqueWords (countFiller t p s) = uniqueWords s
  ∧ emotionScores (countFiller t p s) = emotionScores s
  ∧ fillerWordCount s ≤ fillerWordCount (countFiller t p s).
Proof.
  unfold countFiller. destruct (0 <? _) eqn:E; cbn; repeat split; lia.
Qed.

Lemma scoreWord_grows c e :
  positive e ≤ positive (scoreWord c e)
  ∧ negative e ≤ negative (scoreWord c e)
  ∧ neutral e ≤ neutral (scoreWord c e).
Proof.
  unfold scoreWord.
  destruct (Str.includes _ c); [cbn; lia|].
  destruct (Str.includes _ c); [cbn; lia|].
  destruct (Str.includes _ c); cbn; lia.
Qed.

Lemma processWord_grows w s :
  uniqueWords s ⊆ uniqueWords (processWord w s)
  ∧ positive (emotionScores s) ≤ positive (emotionScores (processWord w s))
  ∧ negative (emotionScores s) ≤ negative (emotionScores (processWord w s))
  ∧ neutral (emotionScores s) ≤ neutral (emotionScores (processWord w s)).
Proof.
  unfold processWord. destruct (0 <? _); cbn.
  - split; [set_solver | apply scoreWord_grows].
  - split; [done | lia].
Qed.

Lemma continues_refl s : continues s s.
Proof. unfold continues. repeat split; (done || lia). Qed.

Lemma continues_trans s1 s2 s3 :
  continues s1 s2 → continues s2 s3 → continues s1 s3.
Proof.
  unfold continues.
  intros (A1 & A2 & A3 & A4 & A5 & A6 & A7 & A8 & A9 & A10)
         (B1 & B2 & B3 & B4 & B5 & B6 & B7 & B8 & B9 & B10).
  repeat split; try congruence; try lia. set_solver.
Qed.

Lemma continues_processWord w s : continues s (processWord w s).
Proof.
  destruct (processWord_frame w s) as (F1 & F2 & F3 & F4 & F5 & F6).
  destruct (processWord_grows w s) as (G1 & G2 & G3 & G4).
  unfold continues. repeat split; try done; lia.
Qed.

Lemma continues_countFiller t p s : continues s (countFiller t p s).
Proof.
  destruct (countFiller_frame t p s) as (F1 & F2 & F3 & F4 & F5 & F6 & F7 & F8).
  unfold continues. rewrite F6, F7. repeat split; try done; lia.
Qed.

Lemma continues_forEach {A} (f : A → Session → Session) l :
  (∀ x s, continues s (f x s)) → ∀ s, continues s (forEach l f s).
Proof.
  intros Hf s.
  apply (forEach_preserves (continues s)); [|apply continues_refl].
  intros x s' Hs'. by eapply continues_trans.
Qed.

Lemma continues_processTranscript t isInterim s :
  continues s (_processTranscript t isInterim s).
Proof.
  unfold _processTranscript. destruct isInterim; cbn [negb].
  - apply continues_forEach, continues_processWord.
  - eapply continues_trans; [|apply continues_forEach, continues_countFiller].
    eapply continues_trans; [|apply continues_forEach, continues_processWord].
    unfold continues. cbn. repeat split; try done; lia.
Qed.

Lemma interim_keeps_counts t s :
  wordCount (_processTranscript t true s) = wordCount s
  ∧ fillerWordCount (_processTranscript t true s) = fillerWordCount s.
Proof.
  unfold _processTranscript. cbn [negb].
  apply (forEach_preserves
           (fun x => wordCount x = wordCount s
                     ∧ fillerWordCount x = fillerWordCount s)); [|done].
  intros w x [Hw Hf].
  by destruct (processWord_frame w x) as (_ & _ & _ & _ & -> & ->).
Qed.

Lemma continues_processFragments results :
  ∀ s, continues s (processFragments results s).
Proof.
  unfold processFragments.
  induction results as [|[t b] rest IH]; intros s; [apply continues_refl|].
  cbn [fold_left]. eapply continues_trans; [|apply IH].
  apply continues_processTranscript.
Qed.

(** ** Runs of actions, in general *)

Lemma processFragments_invariant (P : Session → Prop) results :
  (∀ t i s, P s → P (_processTranscript t i s)) →
  ∀ s, P s → P (processFragments results s).
Proof.
  intros Hp. unfold processFragments.
  induction results as [|[t b] rest IH]; intros s Hs; [done|].
  cbn [fold_left]. by apply IH, Hp.
Qed.

(** The result handler, in full: it completes normally, feeds every
    fragment to [_processTranscript], stores the trimmed transcript, and
    reports to the transcript callback and then to the analytics callback. *)
Lemma onresult_loop_exact results :
  ∀ i f w,
    onresult_loop results i f w
    = (Normal (i +:+ interimTranscriptOf results, f +:+ finalTranscriptOf results),
       (assign (processFragments results) w).2).
Proof.
  induction results as [|[t b] rest IH]; intros i f w.
  - cbn [interimTranscriptOf finalTranscriptOf]. rewrite !append_nil_r.
    by js_run w.
  - destruct b; cbn [interimTranscriptOf finalTranscriptOf].
    + change (onresult_loop rest i (f +:+ t)
                (assign (_processTranscript t false) w).2
              = (Normal (i +:+ interimTranscriptOf rest,
                         f +:+ t +:+ finalTranscriptOf rest),
                 (assign (processFragments ((t, true) :: rest)) w).2)).
      rewrite IH, assign_assign, append_assoc. reflexivity.
    + change (onresult_loop rest (i +:+ t) f
                (assign (_processTranscript t true) w).2
              = (Normal (i +:+ t +:+ interimTranscriptOf rest,
                         f +:+ finalTranscriptOf rest),
                 (assign (processFragments ((t, false) :: rest)) w).2)).
      rewrite IH, assign_assign, append_assoc. reflexivity.
Qed.

Lemma onresult_exact results w s :
  props (this w) = Some s →
  let s1 := processFragments results s in
  let s2 := set_transcriptText
              (Str.trim (transcriptText s +:+ " " +:+ finalTranscriptOf results))
              s1 in
  (onresult results w).1 = Normal ()
  ∧ this (onresult results w).2
    = {| props := Some s2; onTranscriptUpdate := onTranscriptUpdate (this w);
         onAnalyticsUpdate := onAnalyticsUpdate (this w) |}
  ∧ trace (host (onresult results w).2)
    = trace (host w) ++
      match onTranscriptUpdate (this w) with
      | Some cb => [TranscriptUpdate cb (transcriptText s2)
                      (interimTranscriptOf results)]
      | None => []
      end ++
      match truthyTime (startTime s), onAnalyticsUpdate (this w) with
      | Some t, Some cb =>
          [AnalyticsUpdate cb (analytics s2 t (nextReading w)) false]
      | _, _ => []
      end.
Proof.
  intros Hs s1 s2.
  destruct (continues_processFragments results s)
    as (_ & Htext & Hstart & _). fold s1 in Htext, Hstart.
  assert (onresult results w
          = (_updateAnalytics false)
              (match onTranscriptUpdate (this w) with
               | Some cb => emit (TranscriptUpdate cb (transcriptText s2)
                                    (interimTranscriptOf results))
               | None => mret ()
               end
                 {| this := {| props := Some s2;
                               onTranscriptUpdate := onTranscriptUpdate (this w);
                               onAnalyticsUpdate := onAnalyticsUpdate (this w) |};
                    host := host w |}).2) as Heq.
  { unfold onresult. unfold mbind at 1, M_bind at 1, getThis at 1.
    rewrite Hs. unfold mbind at 1, M_bind at 1.
    rewrite onresult_loop_exact.
    destruct w as [[p onT onA] h]. cbn in Hs. subst p.
    unfold s2, s1. rewrite <- Htext. unfold s1.
    js_unfold. cbn. destruct onT; reflexivity. }
  rewrite Heq.
  match goal with |- context [_updateAnalytics false ?x] => set (w1 := x) end.
  destruct (updateAnalytics_spec false w1) as (Hc & Hthis & Htr).
  assert (this w1 = {| props := Some s2;
                       onTranscriptUpdate := onTranscriptUpdate (this w);
                       onAnalyticsUpdate := onAnalyticsUpdate (this w) |}) as Hw1.
  { unfold w1. by destruct (onTranscriptUpdate (this w)). }
  assert (nextReading w1 = nextReading w) as Hn.
  { unfold w1. by destruct (onTranscriptUpdate (this w)). }
  split; [exact Hc|]. split; [by rewrite Hthis|].
  rewrite Htr, Hw1, Hn. cbn [props onAnalyticsUpdate].
  assert (startTime s2 = startTime s) as -> by exact Hstart.
  assert (trace (host w1)
          = trace (host w) ++
            match onTranscriptUpdate (this w) with
            | Some cb => [TranscriptUpdate cb (transcriptText s2)
                            (interimTranscriptOf results)]
            | None => []
            end) as ->.
  { unfold w1. destruct (onTranscriptUpdate (this w)); cbn; by rewrite ?app_nil_r. }
  rewrite <- app_assoc. do 2 f_equal.
  destruct (onAnalyticsUpdate (this w)), (truthyTime (startTime s)); reflexivity.
Qed.

Lemma onresult_props results w :
  props (this (onresult results w).2)
  = (fun s => set_transcriptText
                (Str.trim (transcriptText s +:+ " " +:+ finalTranscriptOf results))
                (processFragments results s)) <$> props (this w).
Proof.
  destruct (props (this w)) as [s|] eqn:Hs.
  - destruct (onresult_exact results w s Hs) as (_ & -> & _). reflexivity.
  - destruct w as [[p onT onA] h]. cbn in Hs. subst p. reflexivity.
Qed.

(** An invariant of the session that the setters of the recording flag,
    a trimmed transcript, a fragment and a reset keep is kept by every
    action. *)
Lemma perform_invariant (P : Session → Prop) :
  (∀ b s, P s → P (set_isRecording b s)) →
  (∀ x s, P s → P (set_transcriptText (Str.trim x) s)) →
  (∀ t i s, P s → P (_processTranscript t i s)) →
  (∀ t h, P (resetSession true (Some t) (Some h))) →
  ∀ a w, (∀ s, props (this w) = Some s → P s) →
         ∀ s, props (this (perform a w).2) = Some s → P s.
Proof.
  intros Hrec Htext Hfrag Hreset a w Hw s'.
  assert (∀ f, (∀ s, P s → P (f s)) →
               f <$> props (this w) = Some s' → P s') as Hmap.
  { intros f Hf Heq. destruct (props (this w)) as [s0|]; [|done].
    injection Heq as <-. by apply Hf, Hw. }
  destruct a as [| | cb | cb | results | | |]; cbn [perform].
  - rewrite start_this, props_assign. apply Hmap. intros s Hs.
    destruct (engineRaises w); [by apply Hrec | apply Hreset].
  - rewrite stop_this, props_assign. apply Hmap. intros s Hs. by apply Hrec.
  - cbn. apply Hw.
  - cbn. apply Hw.
  - rewrite onresult_props. apply Hmap. intros s Hs.
    by apply Htext, processFragments_invariant.
  - rewrite onerror_this, props_assign. apply Hmap. intros s Hs. by apply Hrec.
  - rewrite onend_this. apply Hw.
  - destruct (updateAnalytics_spec false w) as (_ & -> & _). apply Hw.
Qed.

Lemma after_invariant (P : Session → Prop) :
  (∀ b s, P s → P (set_isRecording b s)) →
  (∀ x s, P s → P (set_transcriptText (Str.trim x) s)) →
  (∀ t i s, P s → P (_processTranscript t i s)) →
  (∀ t h, P (resetSession true (Some t) (Some h))) →
  ∀ actions w, (∀ s, props (this w) = Some s → P s) →
               ∀ s, props (this (after actions w)) = Some s → P s.
Proof.
  intros Hrec Htext Hfrag Hreset. unfold after.
  induction actions as [|a l IH]; intros w Hw; [exact Hw|].
  cbn [fold_left]. apply IH. by apply perform_invariant.
Qed.

(** A constructed manager keeps its session properties for good. *)
Lemma after_supported actions :
  ∀ w, is_Some (props (this w)) → is_Some (props (this (after actions w))).
Proof.
  unfold after. induction actions as [|a l IH]; intros w Hw; [done|].
  cbn [fold_left]. apply IH.
  destruct (perform_props a w) as (f & -> & _).
  destruct Hw as [s ->]. by eexists.
Qed.

Lemma after_app l1 l2 w : after (l1 ++ l2) w = after l2 (after l1 w).
Proof. unfold after. apply fold_left_app. Qed.

Lemma transcript_trimmed supported h actions s :
  props (this (after actions (construct supported h))) = Some s →
  Str.trim (transcriptText s) = transcriptText s.
Proof.
  apply (after_invariant
           (fun s => Str.trim (transcriptText s) = transcriptText s)).
  - by intros b s0 H.
  - intros x s0 _. cbn. apply trim_idempotent.
  - intros t i s0 H.
    by destruct (continues_processTranscript t i s0) as (_ & -> & _).
  - by intros t0 h0.
  - destruct supported; cbn; [|done]. by intros s0 [= <-].
Qed.

Lemma finalTranscriptOf_interim results :
  forallb (fun r => negb r.2) results = true → finalTranscriptOf results = "".
Proof.
  induction results as [|[t b] rest IH]; [done|].
  cbn [forallb snd finalTranscriptOf]. intros [Hb Hr]%andb_true_iff.
  destruct b; [done | by apply IH].
Qed.

(** ** The result handler and the accessors *)

(** X1.  Whatever the fragment, final or interim, processing it leaves the
    recording flag, the transcript, the start time and the timer handle
    alone, lowers no counter and drops no distinct word; an interim
    fragment moreover leaves [wordCount] and [fillerWordCount] exactly as
    they were. *)
Theorem X1_fragment_only_adds t isInterim s :
  continues s (_processTranscript t isInterim s)
  ∧ wordCount (_processTranscript t true s) = wordCount s
  ∧ fillerWordCount (_processTranscript t true s) = fillerWordCount s.
Proof.
  split; [apply continues_processTranscript | apply interim_keeps_counts].
Qed.

(** X2.  A result event on a constructed manager never raises.  It feeds
    every result to [_processTranscript] in order, stores as transcript the
    trimmed concatenation of the old transcript, one space and the final
    results of the event (joined to each other without a separator), hands
    the new transcript and the concatenated interim results to the
    transcript callback, and then one non-final snapshot of the new
    session to the analytics callback (if a session was started). *)
Theorem X2_onresult_accumulates results w s :
  props (this w) = Some s →
  let s1 := processFragments results s in
  let s2 := set_transcriptText
              (Str.trim (transcriptText s +:+ " " +:+ finalTranscriptOf results))
              s1 in
  (onresult results w).1 = Normal ()
  ∧ this (onresult results w).2
    = {| props := Some s2; onTranscriptUpdate := onTranscriptUpdate (this w);
         onAnalyticsUpdate := onAnalyticsUpdate (this w) |}
  ∧ trace (host (onresult results w).2)
    = trace (host w) ++
      match onTranscriptUpdate (this w) with
      | Some cb => [TranscriptUpdate cb (transcriptText s2)
                      (interimTranscriptOf results)]
      | None => []
      end ++
      match truthyTime (startTime s), onAnalyticsUpdate (this w) with
      | Some t, Some cb =>
          [AnalyticsUpdate cb (analytics s2 t (nextReading w)) false]
      | _, _ => []
      end.
Proof. apply onresult_exact. Qed.

Lemma X2_onresult_accumulates_witness :
  let w := after [CallSetTranscriptUpdateCallback (Some 3%nat); CallStart;
                  OnResult [("hello", true)]]
             (construct true (quietHost 1000 500)) in
  let w' := (onresult [("big ", true); ("wor", false); ("world", true)] w).2 in
  getTranscript (this w') = JString "hello big world"
  ∧ last (trace (host w'))
    = Some (TranscriptUpdate 3%nat "hello big world" "wor").
Proof.
  intros w w'.
  destruct (props (this w)) as [s|] eqn:Hs; [|vm_compute in Hs; discriminate Hs].
  assert (transcriptText s = "hello") as Ht.
  { vm_compute in Hs. injection Hs as <-. reflexivity. }
  assert (startTime s = Some 1000) as Hst.
  { vm_compute in Hs. injection Hs as <-. reflexivity. }
  assert (onTranscriptUpdate (this w) = Some 3%nat) as HcT by (vm_compute; reflexivity).
  assert (onAnalyticsUpdate (this w) = None) as HcA by (vm_compute; reflexivity).
  destruct (X2_onresult_accumulates
              [("big ", true); ("wor", false); ("world", true)] w s Hs)
    as (_ & Hthis & Htr).
  fold w' in Hthis, Htr. clearbody w w'.
  split.
  - rewrite Hthis. unfold getTranscript. cbn. rewrite Ht. reflexivity.
  - rewrite Htr, HcT, HcA, Hst. cbn [truthyTime Z.eqb].
    rewrite app_nil_r, last_snoc. cbn. rewrite Ht. reflexivity.
Defined.

(** X3.  On a supported platform the accessors never yield [undefined]:
    after any run, [getTranscript()] returns a string without leading or
    trailing white space and [isListening()] returns a boolean. *)
Theorem X3_accessors_on_supported_platform (h : Host) (actions : list Action) :
  let w := after actions (construct true h) in
  ∃ text b,
    getTranscript (this w) = JString text
    ∧ Str.trim text = text
    ∧ isListening (this w) = JBool b.
Proof.
  intros w.
  destruct (after_supported actions (construct true h)) as [s Hs]; [by eexists|].
  fold w in Hs. exists (transcriptText s), (isRecording s).
  unfold getTranscript, isListening. rewrite Hs.
  split; [done|]. split; [|done].
  by apply (transcript_trimmed true h actions).
Qed.

(** X4.  A result event that brings interim results only leaves the stored
    transcript as it is, wherever in a run it comes. *)
Theorem X4_interim_results_keep_transcript
    (supported : bool) (h : Host) (actions : list Action)
    (results : list (string * bool)) :
  forallb (fun r => negb r.2) results = true →
  getTranscript (this (after (actions ++ [OnResult results])
                         (construct supported h)))
  = getTranscript (this (after actions (construct supported h))).
Proof.
  intros Hint. rewrite after_app.
  set (w := after actions (construct supported h)).
  change (after [OnResult results] w) with (onresult results w).2.
  unfold getTranscript. rewrite onresult_props.
  destruct (props (this w)) as [s|] eqn:Hs; [|done].
  cbn. rewrite (finalTranscriptOf_interim results Hint).
  rewrite <- (transcript_trimmed supported h actions s Hs) at 2.
  f_equal. by apply trim_append_blank.
Qed.

Lemma X4_interim_results_keep_transcript_witness :
  getTranscript
    (this (after ([CallStart; OnResult [("good morning", true)]]
                  ++ [OnResult [("every", false); ("everyone", false)]])
             (construct true (quietHost 1000 500))))
  = JString "good morning".
Proof.
  rewrite (X4_interim_results_keep_transcript true (quietHost 1000 500)
             [CallStart; OnResult [("good morning", true)]]
             [("every", false); ("everyone", false)] eq_refl).
  vm_compute. reflexivity.
Defined.

(** ** Starting, stopping and the timer *)

Lemma start_ok w s :
  props (this w) = Some s → engineRaises w = false →
  start w
  = (Normal (),
     {| this := {| props := Some (resetSession true (Some (nextReading w))
                                    (Some (handles (host w))));
                   onTranscriptUpdate := onTranscriptUpdate (this w);
                   onAnalyticsUpdate := onAnalyticsUpdate (this w) |};
        host := {| clock := clock (host w); ticks := S (ticks (host w));
                   engine := engine (host w); calls := S (calls (host w));
                   handles := S (handles (host w));
                   trace := trace (host w) ++
                            [EngineStart; IntervalSet (handles (host w));
                             ConsoleLog "Speech recognition started"] |} |}).
Proof.
  destruct w as [[p onT onA] h]. cbn. intros -> He.
  unfold engineRaises in He. cbn in He.
  js_unfold. cbn. rewrite He. cbn. by rewrite <- !app_assoc.
Qed.

Lemma intervals_app a b : intervals (a ++ b) = intervals a ++ intervals b.
Proof.
  induction a as [|e a IH]; [done|].
  destruct e; cbn; by rewrite ?IH.
Qed.

Lemma stop_intervals w s :
  props (this w) = Some s → engineRaises w = false →
  intervals (trace (host (stop w).2))
  = intervals (trace (host w)) ++ [IntervalCleared (analyticsTimer s)].
Proof.
  intros Hs He. rewrite (stop_trace w s Hs He), !intervals_app. f_equal.
  cbn. destruct (truthyTime (startTime s)); cbn; [|done].
  destruct (_ <? _); cbn; [|done].
  by destruct (onAnalyticsUpdate (this w)).
Qed.

(** X5.  A start whose engine call succeeds leaves a session that owes
    nothing to the one before: recording, empty transcript, all counters 0,
    no distinct word, the start time read from the clock and the handle of
    a new timer; the callbacks stay registered.  It starts the engine, sets
    one timer and logs one line. *)
Theorem X5_start_resets_session w s :
  props (this w) = Some s → engineRaises w = false →
  (start w).1 = Normal ()
  ∧ this (start w).2
    = {| props := Some (resetSession true (Some (nextReading w))
                          (Some (handles (host w))));
         onTranscriptUpdate := onTranscriptUpdate (this w);
         onAnalyticsUpdate := onAnalyticsUpdate (this w) |}
  ∧ trace (host (start w).2)
    = trace (host w) ++
      [EngineStart; IntervalSet (handles (host w));
       ConsoleLog "Speech recognition started"].
Proof. intros Hs He. by rewrite (start_ok w s Hs He). Qed.

Lemma X5_start_resets_session_witness :
  let w := after [CallStart; OnResult [("um this is great", true)]; CallStop]
             (construct true (quietHost 1000 500)) in
  (wordCount <$> props (this w)) = Some 4
  ∧ props (this (start w).2) = Some (resetSession true (Some 3000) (Some 2%nat)).
Proof.
  intros w.
  destruct (props (this w)) as [s|] eqn:Hs; [|vm_compute in Hs; discriminate Hs].
  assert (wordCount s = 4) as Hw.
  { vm_compute in Hs. injection Hs as <-. reflexivity. }
  assert (engineRaises w = false) as He by (vm_compute; reflexivity).
  assert (nextReading w = 3000) as Hn by (vm_compute; reflexivity).
  assert (handles (host w) = 2%nat) as Hh by (vm_compute; reflexivity).
  destruct (X5_start_resets_session w s Hs He) as (_ & Hthis & _).
  clearbody w. split; [by rewrite <- Hw|].
  rewrite Hthis. cbn [props]. by rewrite Hn, Hh.
Defined.

(** X6.  When both engine calls succeed, a stop that follows a start
    cancels exactly the timer that the start has set. *)
Theorem X6_stop_cancels_the_timer_of_start w s :
  props (this w) = Some s →
  engine (host w) (calls (host w)) = false →
  engine (host w) (S (calls (host w))) = false →
  intervals (trace (host (after [CallStart; CallStop] w)))
  = intervals (trace (host w)) ++
    [IntervalSet (handles (host w)); IntervalCleared (Some (handles (host w)))].
Proof.
  intros Hs He1 He2. cbn [after fold_left perform].
  rewrite (start_ok w s Hs He1). cbn [snd].
  erewrite stop_intervals; [|reflexivity|exact He2].
  cbn [host trace resetSession analyticsTimer].
  rewrite intervals_app. cbn. by rewrite <- app_assoc.
Qed.

Lemma X6_stop_cancels_the_timer_of_start_witness :
  intervals (trace (host (after [CallStart; CallStop]
                            (construct true (quietHost 1000 500)))))
  = [IntervalSet 1; IntervalCleared (Some 1%nat)].
Proof.
  exact (X6_stop_cancels_the_timer_of_start
           (construct true (quietHost 1000 500)) _ eq_refl eq_refl eq_refl).
Defined.



(** ** The end of the stream and engine errors *)

Lemma onend_recording w s :
  props (this w) = Some s → isRecording s = true →
  onend w = engine_call EngineStart w.
Proof.
  destruct w as [[p onT onA] h]. cbn. intros -> Hr.
  unfold onend, mbind, M_bind, getThis. cbn. by rewrite Hr.
Qed.

Lemma onend_idle w s :
  props (this w) = Some s → isRecording s = false →
  (onend w).1 = Normal ()
  ∧ trace (host (onend w).2)
    = trace (host w) ++ [IntervalCleared (analyticsTimer s)] ++
      match truthyTime (startTime s), onAnalyticsUpdate (this w) with
      | Some t, Some cb => [AnalyticsUpdate cb (analytics s t (nextReading w)) true]
      | _, _ => []
      end.
Proof.
  destruct w as [[p onT onA] h]. cbn. intros -> Hr.
  js_unfold. cbn. rewrite Hr. cbn.
  destruct (truthyTime (startTime s)); cbn; [|done].
  destruct onA; cbn; by rewrite <- ?app_assoc.
Qed.

Lemma finalSnapshots_app a b :
  finalSnapshots (a ++ b) = finalSnapshots a ++ finalSnapshots b.
Proof.
  unfold finalSnapshots. by rewrite snapshots_app, filter_app, fmap_app.
Qed.

(** X8.  When the stream ends while the manager is recording, the handler
    restarts the engine and nothing else: the object, counters included, is
    as before and no snapshot is delivered.  The restart is not guarded: if
    the engine raises, the exception leaves the handler. *)
Theorem X8_end_while_recording_restarts w s :
  props (this w) = Some s → isRecording s = true →
  this (onend w).2 = this w
  ∧ (engineRaises w = false →
     (onend w).1 = Normal ()
     ∧ trace (host (onend w).2) = trace (host w) ++ [EngineStart])
  ∧ (engineRaises w = true →
     (onend w).1 = Throw "InvalidStateError"
     ∧ trace (host (onend w).2) = trace (host w)).
Proof.
  intros Hs Hr. rewrite (onend_recording w s Hs Hr).
  unfold engine_call, engineRaises.
  split; [by destruct (engine _ _)|].
  split; intros ->; done.
Qed.

Lemma X8_end_while_recording_restarts_witness :
  let w := after [CallStart; OnResult [("so far so good", true)]]
             (construct true (quietHost 1000 500)) in
  (wordCount <$> props (this (onend w).2)) = Some 4
  ∧ trace (host (onend w).2) = trace (host w) ++ [EngineStart].
Proof.
  intros w.
  destruct (props (this w)) as [s|] eqn:Hs; [|vm_compute in Hs; discriminate Hs].
  assert (isRecording s = true) as Hr.
  { vm_compute in Hs. injection Hs as <-. reflexivity. }
  assert (wordCount s = 4) as Hw.
  { vm_compute in Hs. injection Hs as <-. reflexivity. }
  assert (engineRaises w = false) as He by (vm_compute; reflexivity).
  destruct (X8_end_while_recording_restarts w s Hs Hr) as (Hthis & Hok & _).
  clearbody w. split.
  - by rewrite Hthis, Hs, <- Hw.
  - exact (proj2 (Hok He)).
Defined.

(** X9.  The final report of a session comes more than once.  On a
    started session with a registered callback and an engine that stops
    without raising, [stop()] followed by the end-of-stream event delivers
    two final snapshots when the clock had moved past the start time at
    the stop, and one (from the end-of-stream handler) when it had not. *)
Theorem X9_stop_then_end_repeats_final_snapshot w s t cb :
  props (this w) = Some s →
  truthyTime (startTime s) = Some t →
  onAnalyticsUpdate (this w) = Some cb →
  engineRaises w = false →
  length (finalSnapshots (trace (host (after [CallStop; OnEnd] w))))
  = (length (finalSnapshots (trace (host w)))
     + (if (t <? nextReading w)%Z then 2 else 1))%nat.
Proof.
  intros Hs Ht Hcb He. cbn [after fold_left perform].
  set (w1 := (stop w).2).
  assert (this w1 = this (assign (set_isRecording false) w).2) as Hthis
    by apply stop_this.
  assert (props (this w1) = Some (set_isRecording false s)) as Hs1
    by (by rewrite Hthis, props_assign, Hs).
  assert (onAnalyticsUpdate (this w1) = Some cb) as Hcb1
    by (by rewrite Hthis).
  destruct (onend_idle w1 _ Hs1 eq_refl) as (_ & ->).
  cbn [startTime set_isRecording]. rewrite Ht, Hcb1.
  unfold w1 at 1. rewrite (stop_trace w s Hs He), Ht, Hcb.
  rewrite !finalSnapshots_app, !length_app.
  destruct (t <? nextReading w); unfold finalSnapshots; cbn;
    repeat case_decide; try done; cbn; lia.
Qed.

Lemma X9_stop_then_end_repeats_final_snapshot_witness :
  let w := after [CallSetAnalyticsUpdateCallback (Some 7%nat); CallStart]
             (construct true (quietHost 1000 500)) in
  length (finalSnapshots (trace (host (after [CallStop; OnEnd] w)))) = 2%nat.
Proof.
  intros w.
  destruct (props (this w)) as [s|] eqn:Hs; [|vm_compute in Hs; discriminate Hs].
  assert (truthyTime (startTime s) = Some 1000) as Ht.
  { vm_compute in Hs. injection Hs as <-. reflexivity. }
  assert (onAnalyticsUpdate (this w) = Some 7%nat) as Hcb by (vm_compute; reflexivity).
  assert (engineRaises w = false) as He by (vm_compute; reflexivity).
  assert (nextReading w = 1500) as Hn by (vm_compute; reflexivity).
  assert (finalSnapshots (trace (host w)) = []) as H0 by (vm_compute; reflexivity).
  rewrite (X9_stop_then_end_repeats_final_snapshot w s 1000 7%nat Hs Ht Hcb He).
  clearbody w. rewrite H0, Hn. reflexivity.
Defined.

(** X10.  Whatever the engine does, a constructed manager reports that it
    listens after [start()] and that it does not after [stop()] or after an
    engine error, and none of the three raises. *)
Theorem X10_listening_flag_follows_the_call w :
  is_Some (props (this w)) →
  ((start w).1 = Normal () ∧ isListening (this (start w).2) = JBool true)
  ∧ ((stop w).1 = Normal () ∧ isListening (this (stop w).2) = JBool false)
  ∧ ((onerror w).1 = Normal () ∧ isListening (this (onerror w).2) = JBool false).
Proof.
  intros [s Hs].
  split; [split; [apply start_completion|]|split; split].
  - rewrite start_this. unfold isListening. rewrite props_assign, Hs.
    by destruct (engineRaises w).
  - apply stop_completion.
  - rewrite stop_this. unfold isListening. by rewrite props_assign, Hs.
  - destruct w as [[p onT onA] h]. cbn in Hs. subst p.
    js_unfold. cbn. js_cases; reflexivity.
  - rewrite onerror_this. unfold isListening. by rewrite props_assign, Hs.
Qed.

Lemma X10_listening_flag_follows_the_call_witness :
  let w := construct true (brokenHost 1000 500) in
  isListening (this (start w).2) = JBool true
  ∧ isListening (this (stop (start w).2).2) = JBool false.
Proof.
  intros w. split.
  - exact (proj2 (proj1 (X10_listening_flag_follows_the_call w
                           (mk_is_Some _ _ eq_refl)))).
  - apply (X10_listening_flag_follows_the_call (start w).2).
    vm_compute. by eexists.
Defined.

(** ** The distinct words *)

Lemma lowered_clean_char c :
  negb (cleanPattern (Char.toLowerCase c)) = true →
  Char.isWhiteSpace (Char.toLowerCase c) = false →
  Char.isLower (Char.toLowerCase c) || Char.isDigit (Char.toLowerCase c) = true.
Proof. by_cases_on_char c. Qed.

Lemma all_toLowerCase s :
  Str.all (fun c => implb (negb (cleanPattern c) && negb (Char.isWhiteSpace c))
                      (Char.isLower c || Char.isDigit c))
    (Str.toLowerCase s) = true.
Proof.
  induction s as [|c r IH]; [done|].
  cbn [Str.toLowerCase Str.map Str.all]. fold (Str.toLowerCase r). rewrite IH, andb_true_r.
  pose proof (lowered_clean_char c) as H.
  destruct (negb (cleanPattern _)), (Char.isWhiteSpace (Char.toLowerCase c));
    cbn in *; auto.
Qed.

(** Every piece of a split is made of characters of the text. *)
Lemma split_go_all (P : ascii → bool) s :
  ∀ acc b piece,
    Str.all P acc = true → Str.all P s = true →
    piece ∈ Str.split_go acc b s → Str.all P piece = true.
Proof.
  induction s as [|c r IH]; intros acc b piece Hacc; cbn [Str.split_go Str.all].
  - intros _ ->%list_elem_of_singleton. by rewrite all_rev.
  - intros [Hc Hr]%andb_true_iff.
    destruct (Char.isWhiteSpace c).
    + destruct b; [by apply IH|].
      intros [-> | H]%elem_of_cons; [by rewrite all_rev|].
      by apply (IH "" true).
    + apply IH; [|done]. cbn [Str.all]. by rewrite Hc.
Qed.

Lemma all_filter (P Q f : ascii → bool) s :
  (∀ c, P c = true → f c = true → Q c = true) →
  Str.all P s = true → Str.all Q (Str.filter f s) = true.
Proof.
  intros H. induction s as [|c r IH]; [done|].
  cbn [Str.all Str.filter]. intros [Hc Hr]%andb_true_iff.
  destruct (f c) eqn:Hf; [|by apply IH].
  cbn [Str.all]. by rewrite (H c Hc Hf), (IH Hr).
Qed.

Lemma all_and (P Q : ascii → bool) s :
  Str.all P s = true → Str.all Q s = true →
  Str.all (fun c => P c && Q c) s = true.
Proof.
  induction s as [|c r IH]; [done|]. cbn [Str.all].
  intros [-> Hp]%andb_true_iff [-> Hq]%andb_true_iff. by rewrite IH.
Qed.

Lemma cleanWord_normalised transcript word :
  word ∈ words transcript →
  Str.all (fun c => Char.isLower c || Char.isDigit c) (cleanWord word) = true.
Proof.
  intros Hin. unfold cleanWord, Str.deleteAll.
  apply (all_filter
           (fun c => implb (negb (cleanPattern c) && negb (Char.isWhiteSpace c))
                       (Char.isLower c || Char.isDigit c)
                     && negb (Char.isWhiteSpace c))).
  - intros c [H1 H2]%andb_true_iff Hf. rewrite Hf, H2 in H1. exact H1.
  - apply all_and; [|by apply (words_no_space transcript)].
    unfold words, Str.split_whitespace in Hin.
    apply (split_go_all _ _ "" false word eq_refl (all_toLowerCase _) Hin).
Qed.

Lemma forEach_preserves_in {A} (P : Session → Prop) (f : A → Session → Session) l :
  (∀ x s, x ∈ l → P s → P (f x s)) → ∀ s, P s → P (forEach l f s).
Proof.
  unfold forEach. induction l as [|x l IH]; intros Hf s Hs; [done|].
  cbn [fold_left]. apply IH.
  - intros y s' Hy. apply Hf. by right.
  - apply Hf; [by left | done].
Qed.

Lemma normalised_processTranscript t i s :
  (∀ x, x ∈ uniqueWords s → normalisedWord x = true) →
  ∀ x, x ∈ uniqueWords (_processTranscript t i s) → normalisedWord x = true.
Proof.
  intros Hs.
  assert (∀ s0, (∀ x, x ∈ uniqueWords s0 → normalisedWord x = true) →
                ∀ x, x ∈ uniqueWords (forEach (words t) processWord s0) →
                     normalisedWord x = true) as Hwords.
  { intros s0 Hs0.
    apply (forEach_preserves_in
             (fun s' => ∀ x, x ∈ uniqueWords s' → normalisedWord x = true));
      [|exact Hs0].
    intros w s' Hw Hs' x. unfold processWord.
    destruct (0 <? Z.of_nat (String.length (cleanWord w))) eqn:E; [|apply Hs'].
    cbn. intros [->%elem_of_singleton | Hx]%elem_of_union; [|by apply Hs'].
    unfold normalisedWord. rewrite (cleanWord_normalised t w Hw), andb_true_r.
    by destruct (cleanWord w). }
  unfold _processTranscript. destruct i; cbn [negb].
  - by apply Hwords.
  - rewrite uniqueWords_forEach_countFiller. by apply Hwords.
Qed.

(** X11.  In every state a manager reaches, each distinct word on record
    is a non-empty string of lower-case ASCII letters and ASCII digits:
    what gets into [uniqueWords] has been lower-cased and stripped of every
    other character, and empty leftovers are not recorded. *)
Theorem X11_uniqueWords_are_normalised
    (supported : bool) (h : Host) (actions : list Action) (s : Session) (x : string) :
  props (this (after actions (construct supported h))) = Some s →
  x ∈ uniqueWords s →
  normalisedWord x = true.
Proof.
  intros Hs. revert x. revert s Hs.
  apply (after_invariant
           (fun s => ∀ x, x ∈ uniqueWords s → normalisedWord x = true)).
  - by intros b s H.
  - by intros t s H.
  - intros t i s H. by apply normalised_processTranscript.
  - intros t0 h0 x. cbn. set_solver.
  - destruct supported; cbn; [|done]. intros s [= <-] x. cbn. set_solver.
Qed.

Lemma X11_uniqueWords_are_normalised_witness :
  let actions := [CallStart; OnResult [("Don't PANIC, it's 42!", true)]] in
  ∃ s, props (this (after actions (construct true (quietHost 1000 500)))) = Some s
       ∧ "dont" ∈ uniqueWords s
       ∧ normalisedWord "dont" = true.
Proof.
  intros actions.
  destruct (props (this (after actions (construct true (quietHost 1000 500)))))
    as [s|] eqn:Hs; [|vm_compute in Hs; discriminate Hs].
  exists s. split; [reflexivity|].
  assert ("dont" ∈ uniqueWords s) as Hin.
  { assert (uniqueWords s = {[ "dont"; "panic"; "its"; "42" ]}) as ->.
    { vm_compute in Hs. injection Hs as <-. vm_compute. reflexivity. }
    set_solver. }
  split; [exact Hin|].
  exact (X11_uniqueWords_are_normalised true (quietHost 1000 500) actions s
           "dont" Hs Hin).
Defined.

(** ** Sentiment words and filler phrases *)

Lemma includes_elem l w : Str.includes l w = true → w ∈ l.
Proof.
  induction l as [|x l IH]; [done|]. cbn [Str.includes].
  destruct (String.eqb_spec x w) as [->|_]; [by left | right; auto].
Qed.

Lemma dictionary_disjoint w :
  (Str.includes sentimentDictionary.positive w = true →
   Str.includes sentimentDictionary.negative w = false
   ∧ Str.includes sentimentDictionary.neutral w = false)
  ∧ (Str.includes sentimentDictionary.negative w = true →
     Str.includes sentimentDictionary.neutral w = false).
Proof.
  split; intros H%includes_elem;
    repeat (apply elem_of_cons in H as [-> | H]; [by vm_compute|]);
    by apply elem_of_nil in H.
Qed.

(** X12.  A word whose clean token is not empty scores in exactly the
    categories whose word list holds the clean token, by one each; since no
    token is on two lists, that is one category at most, and the order in
    which the lists are tried makes no difference. *)
Theorem X12_word_scores_where_its_token_is_listed word s :
  Str.isEmpty (cleanWord word) = false →
  let e := emotionScores s in
  let e' := emotionScores (processWord word s) in
  positive e' = positive e
                + indicator (Str.includes sentimentDictionary.positive (cleanWord word))
  ∧ negative e' = negative e
                  + indicator (Str.includes sentimentDictionary.negative (cleanWord word))
  ∧ neutral e' = neutral e
                 + indicator (Str.includes sentimentDictionary.neutral (cleanWord word))
  ∧ totalEmotion (processWord word s) ≤ totalEmotion s + 1.
Proof.
  intros Hne. unfold processWord, totalEmotion.
  destruct (cleanWord word) as [|c r] eqn:Hc; [done|].
  assert ((0 <? Z.of_nat (String.length (String c r))) = true) as ->
    by (apply Z.ltb_lt; cbn [String.length]; lia).
  destruct (dictionary_disjoint (String c r)) as [Hpos Hneg].
  unfold scoreWord, indicator.
  destruct (Str.includes sentimentDictionary.positive _) eqn:E1.
  - destruct (Hpos eq_refl) as [-> ->]. cbn. lia.
  - destruct (Str.includes sentimentDictionary.negative _) eqn:E2.
    + rewrite (Hneg eq_refl). cbn. lia.
    + destruct (Str.includes sentimentDictionary.neutral _); cbn; lia.
Qed.

Lemma X12_word_scores_where_its_token_is_listed_witness :
  emotionScores (processWord "awful!" fresh)
  = {| positive := 0; negative := 1; neutral := 0 |}.
Proof.
  destruct (X12_word_scores_where_its_token_is_listed "awful!" fresh eq_refl)
    as (Hp & Hn & Hu & _).
  destruct (emotionScores (processWord "awful!" fresh)) as [p n u].
  cbn in Hp, Hn, Hu. by rewrite Hp, Hn, Hu.
Defined.

Lemma matchLiteral_length p :
  ∀ prev s last rest,
    RegExp.matchLiteral p prev s = Some (last, rest) →
    String.length s = (String.length p + String.length rest)%nat.
Proof.
  induction p as [|pc pr IH]; intros prev s last rest; cbn [RegExp.matchLiteral].
  - by intros [= _ ->].
  - destruct s as [|c r]; [done|].
    destruct (Char.eqIgnoreCase pc c); [|done].
    intros H%IH. cbn [String.length]. lia.
Qed.

Lemma matchAt_length p prev s :
  RegExp.matchAt p prev s = true → (String.length p ≤ String.length s)%nat.
Proof.
  unfold RegExp.matchAt. intros [_ H]%andb_true_iff.
  destruct (RegExp.matchLiteral p prev s) as [[last rest]|] eqn:E; [|done].
  apply matchLiteral_length in E. lia.
Qed.

Lemma countMatches_go_bound p s :
  (0 < String.length p)%nat →
  ∀ skip prev,
    0 ≤ RegExp.countMatches_go p skip prev s
    ∧ RegExp.countMatches_go p skip prev s * Z.of_nat (String.length p)
      ≤ Z.max 0 (Z.of_nat (String.length s) - Z.of_nat skip).
Proof.
  intros Hp. induction s as [|c r IH]; intros skip prev.
  - cbn. lia.
  - cbn [RegExp.countMatches_go String.length]. destruct skip as [|k].
    + destruct (RegExp.matchAt p prev (String c r)) eqn:E.
      * apply matchAt_length in E. cbn [String.length] in E.
        destruct (IH (String.length p - 1)%nat (Some c)) as [H0 H1]. nia.
      * destruct (IH 0%nat (Some c)) as [H0 H1]. lia.
    + destruct (IH k (Some c)) as [H0 H1]. lia.
Qed.

(** X13.  The matches of a filler phrase in a text do not overlap: their
    number times the length of the phrase never exceeds the length of the
    text. *)
Theorem X13_filler_matches_do_not_overlap p s :
  (0 < String.length p)%nat →
  0 ≤ RegExp.countMatches p s
  ∧ RegExp.countMatches p s * Z.of_nat (String.length p)
    ≤ Z.of_nat (String.length s).
Proof.
  intros Hp. destruct (countMatches_go_bound p s Hp 0%nat None) as [H0 H1].
  unfold RegExp.countMatches. lia.
Qed.

Lemma X13_filler_matches_do_not_overlap_witness :
  RegExp.countMatches "um" "um um" * 2 ≤ 5.
Proof.
  exact (proj2 (X13_filler_matches_do_not_overlap "um" "um um"
                  (Nat.lt_0_succ _))).
Defined.

(** ** Counters and snapshots *)

Lemma round_nonneg x : (0 <= x)%Q → (0 <= Float.round x)%Q.
Proof.
  intros H. destruct x as [[|n|n] d]; unfold Float.round; cbn [Qnum].
  - apply Qle_refl.
  - apply Qlt_le_weak, roundPositive_pos.
  - unfold Qle in H. cbn in H. lia.
Qed.

Lemma div_nonneg x y : (0 <= x)%Q → (0 < y)%Q → (0 <= Float.div x y)%Q.
Proof.
  intros Hx Hy. apply round_nonneg.
  apply Qle_shift_div_l; [exact Hy|]. by rewrite Qmult_0_l.
Qed.

Lemma mathRound_nonneg x : (0 <= x)%Q → 0 ≤ Num.round x.
Proof.
  intros H. unfold Num.round. rewrite <- (Qfloor_Z 0).
  apply Qfloor_resp_le. change (inject_Z 0) with 0%Q. lra.
Qed.

Lemma durationMinutes_nonneg now t : t ≤ now → (0 <= durationMinutes now t)%Q.
Proof.
  intros H. unfold durationMinutes.
  apply div_nonneg; [|reflexivity]. apply div_nonneg; [|reflexivity].
  change 0%Q with (inject_Z 0). rewrite <- Zle_Qle. lia.
Qed.

Lemma countersNonNegative_reachable supported h actions s :
  props (this (after actions (construct supported h))) = Some s →
  countersNonNegative s.
Proof.
  apply (after_invariant countersNonNegative).
  - by intros b s0 H.
  - by intros x s0 H.
  - intros t i s0 (H1 & H2 & H3 & H4 & H5).
    destruct (continues_processTranscript t i s0)
      as (_ & _ & _ & _ & G1 & G2 & _ & G3 & G4 & G5).
    unfold countersNonNegative. lia.
  - intros t0 h0. unfold countersNonNegative. cbn. lia.
  - destruct supported; cbn; [|done]. intros s0 [= <-].
    unfold countersNonNegative. cbn. lia.
Qed.

(** X14.  In every state a manager reaches no counter is negative, and the
    snapshot computed from it at any clock reading copies
    [fillerWordCount], has a speaking pace that is never negative and is 0
    when the clock has not moved past the start time, and has a duration
    that is not negative when the clock has not gone back. *)
Theorem X14_snapshot_numbers_are_not_negative
    (supported : bool) (h : Host) (actions : list Action) (s : Session)
    (t now : Z) :
  props (this (after actions (construct supported h))) = Some s →
  countersNonNegative s
  ∧ Analytics.fillerWordCount (analytics s t now) = fillerWordCount s
  ∧ 0 ≤ Analytics.speakingPace (analytics s t now)
  ∧ (now ≤ t → Analytics.speakingPace (analytics s t now) = 0)
  ∧ (t ≤ now → 0 ≤ Analytics.duration (analytics s t now)).
Proof.
  intros Hs.
  pose proof (countersNonNegative_reachable supported h actions s Hs) as Hc.
  split; [exact Hc|]. split; [reflexivity|].
  destruct Hc as (Hw & _).
  unfold analytics. cbn [Analytics.speakingPace Analytics.duration].
  rewrite positive_duration.
  split; [|split].
  - destruct (Z.ltb_spec t now) as [Hlt|Hge]; [|lia].
    apply mathRound_nonneg, div_nonneg.
    + change 0%Q with (inject_Z 0). by rewrite <- Zle_Qle.
    + pose proof (positive_duration now t) as Hp.
      rewrite (proj2 (Z.ltb_lt _ _) Hlt) in Hp.
      unfold Num.positive in Hp. apply negb_true_iff in Hp.
      apply Qnot_le_lt. intros Hle%Qle_bool_iff. congruence.
  - intros Hle. by rewrite (proj2 (Z.ltb_ge _ _) Hle).
  - intros Hle. apply mathRound_nonneg, round_nonneg.
    apply Qmult_le_0_compat; [by apply durationMinutes_nonneg | discriminate].
Qed.

Lemma X14_snapshot_numbers_are_not_negative_witness :
  let actions := [CallStart; OnResult [("like, you know, fine", true)]] in
  ∃ s, props (this (after actions (construct true (quietHost 1000 500)))) = Some s
       ∧ 0 ≤ Analytics.speakingPace (analytics s 1000 31000)
       ∧ Analytics.speakingPace (analytics s 1000 1000) = 0.
Proof.
  intros actions.
  destruct (props (this (after actions (construct true (quietHost 1000 500)))))
    as [s|] eqn:Hs; [|vm_compute in Hs; discriminate Hs].
  exists s. split; [reflexivity|].
  split.
  - apply (X14_snapshot_numbers_are_not_negative true (quietHost 1000 500)
             actions s 1000 31000 Hs).
  - apply (X14_snapshot_numbers_are_not_negative true (quietHost 1000 500)
             actions s 1000 1000 Hs). lia.
Defined.

(** ** The unsupported platform *)

Lemma perform_degraded a w :
  props (this w) = None →
  host (perform a w).2 = host w ∧ props (this (perform a w).2) = None.
Proof.
  destruct w as [[p onT onA] h]. cbn. intros ->.
  by destruct a.
Qed.

(** X15.  A manager constructed without recognition capability never
    touches its host again: whatever is done to it afterwards, the clock is
    not read, no engine method is called, no timer is set, no callback is
    invoked and nothing is logged beyond the one error of the constructor. *)
Theorem X15_degraded_manager_is_silent (h : Host) (actions : list Action) :
  host (after actions (construct false h))
  = set_trace (trace h ++
               [ConsoleError "Speech recognition not supported in this browser"])
      h.
Proof.
  change (set_trace _ h) with (host (construct false h)).
  assert (props (this (construct false h)) = None) as Hp by reflexivity.
  revert Hp. generalize (construct false h). unfold after.
  induction actions as [|a l IH]; intros w Hw; [done|].
  cbn [fold_left]. destruct (perform_degraded a w Hw) as [Hh Hn].
  by rewrite (IH _ Hn), Hh.
Qed.

(** ** Counting words *)

(** X16.  For final fragments none of which is blank, [wordCount] grows by
    exactly the number of white-space-delimited tokens of the raw texts,
    whatever the punctuation and the case of the tokens. *)
Theorem X16_wordCount_counts_tokens fragments s :
  Forall (fun t => Str.blank t = false) fragments →
  wordCount (processFinals fragments s)
  = wordCount s + Z.of_nat (sum_list_with tokenCount fragments).
Proof. apply wordCount_processFinals_not_blank. Qed.

Lemma X16_wordCount_counts_tokens_witness :
  wordCount (processFinals ["  Well --  I think so. "; "OK"] fresh) = 6.
Proof.
  rewrite (X16_wordCount_counts_tokens ["  Well --  I think so. "; "OK"] fresh).
  - reflexivity.
  - repeat constructor.
Defined.

(** ** Filler phrases and the case of the text *)













(** ** The start time *)

(** X18.  Once set, the start time stays set: [stop()], an engine error or
    the end of the stream do not clear it, and a later start replaces it.
    So whatever asks for a snapshot after the session has ended still has a
    start time to compute one from. *)
Theorem X18_startTime_is_never_cleared w s actions s' :
  props (this w) = Some s → is_Some (startTime s) →
  props (this (after actions w)) = Some s' →
  is_Some (startTime s').
Proof.
  intros Hs Hst. revert s'.
  apply (after_invariant (fun x => is_Some (startTime x))).
  - by intros b x H.
  - by intros t x H.
  - intros t i x H.
    by destruct (continues_processTranscript t i x) as (_ & _ & -> & _).
  - intros t h. cbn. by eexists.
  - intros x Hx. rewrite Hs in Hx. by injection Hx as <-.
Qed.

Lemma X18_startTime_is_never_cleared_witness :
  let w := after [CallSetAnalyticsUpdateCallback (Some 7%nat); CallStart]
             (construct true (quietHost 1000 500)) in
  let w' := after [CallStop; OnEnd] w in
  (∃ s', props (this w') = Some s' ∧ is_Some (startTime s'))
  ∧ snapshots (trace (host (_updateAnalytics false w').2))
    ≠ snapshots (trace (host w')).
Proof.
  intros w w'. split.
  - destruct (props (this w)) as [s|] eqn:Hs; [|vm_compute in Hs; discriminate Hs].
    destruct (props (this w')) as [s'|] eqn:Hs'; [|vm_compute in Hs'; discriminate Hs'].
    exists s'. split; [reflexivity|].
    apply (X18_startTime_is_never_cleared w s [CallStop; OnEnd] s' Hs); [|exact Hs'].
    vm_compute in Hs. injection Hs as <-. by eexists.
  - vm_compute. discriminate.
Defined.
